(** * UUID decoding (main.go): a shallow embedding and its properties

    The Go program parses the textual form of a UUID into a byte slice
    ([UUIDByte]) and derives version, variant, timestamp, clock sequence and
    payload from it.  Byte slices live in a heap of backing arrays, so that
    the two methods that allocate ([DataInfo], [FromString]) can be compared
    with the slices they were given; the read-only methods take the bytes the
    slice denotes.  Fixed-width integers are [Z] with the wrap-around written
    out; Go's [int] is taken to be 64 bits wide. *)

From Stdlib Require Import ZArith Lia Bool List.
From Stdlib.Strings Require Import String Ascii Byte.
From Stdlib.Numbers Require Import DecimalString.
From stdpp Require Import list.

Local Open Scope Z_scope.

(** ** Outcomes of Go code *)

(** A Go function either returns, or panics (here always a run-time bounds
    error).  [OutOfFuel] is the third outcome of the model only: a loop that
    was given too few iterations. *)
Inductive result (A : Type) : Type :=
| Ok (a : A)
| Panic
| OutOfFuel.
Arguments Ok {A} a.
Arguments Panic {A}.
Arguments OutOfFuel {A}.

#[export] Instance result_ret : MRet result := @Ok.
#[export] Instance result_bind : MBind result := fun A B f m =>
  match m with
  | Ok a => f a
  | Panic => Panic
  | OutOfFuel => OutOfFuel
  end.

(** ** Fixed-width integers *)

Definition uint8 (z : Z) : Z := z mod 2 ^ 8.
Definition uint16 (z : Z) : Z := z mod 2 ^ 16.
Definition uint32 (z : Z) : Z := z mod 2 ^ 32.
Definition int64 (z : Z) : Z := (z + 2 ^ 63) mod 2 ^ 64 - 2 ^ 63.

(** The value of a byte, and the byte of a value (the low eight bits). *)
Definition byteZ (b : byte) : Z := Z.of_N (Byte.to_N b).
Definition toByte (z : Z) : byte :=
  match Byte.of_N (Z.to_N (uint8 z)) with
  | Some b => b
  | None => x00
  end.

(** [u[i]]: an index expression panics out of range. *)
Definition index {A : Type} (u : list A) (i : nat) : result A :=
  match u !! i with
  | Some x => Ok x
  | None => Panic
  end.

(** [u[lo:hi]] on a slice whose capacity is its length. *)
Definition subslice {A : Type} (u : list A) (lo hi : nat) : result (list A) :=
  if (lo <=? hi)%nat && (hi <=? length u)%nat
  then Ok (take (hi - lo) (drop lo u))
  else Panic.

(** ** The enumerations and constants of main.go *)

Inductive UUIDVariant : Type :=
| NullVariant
| VariantNCS
| VariantRFC4122
| VariantMicrosoft
| VariantFuture.

Definition secondFieldIdx : nat := 4.
Definition versionIdx : nat := 6.
Definition variantIdx : nat := 8.
Definition macIdx : nat := 10.
Definition uuidLength : nat := 16.
Definition macLength : nat := 6.

(** ** Field extraction *)

Definition Version (u : list byte) : result Z :=
  b ← index u versionIdx;
  mret (Z.shiftr (byteZ b) 4).

Definition Variant (u : list byte) : result UUIDVariant :=
  b ← index u variantIdx;
  let v := Z.shiftr (byteZ b) 4 in
  mret (if v <=? 7 then VariantNCS
        else if (8 <=? v) && (v <=? 0x0b) then VariantRFC4122
        else if (0x0c <=? v) && (v <=? 0x0d) then VariantMicrosoft
        else VariantFuture).

Definition MaskVariant (u : list byte) : result byte :=
  b ← index u variantIdx;
  let b := byteZ b in
  mret (toByte (if Z.land b 0x80 =? 0 then Z.land b 0x7f
                else if Z.land b 0xc0 =? 0x80 then Z.land b 0x3f
                else Z.land b 0x1f)).

(** ** The parts of Go's standard library that main.go calls *)

(** Package time.  A [Time] without monotonic clock reading, in UTC, as
    [time.Date] builds it: [ext] is the int64 count of seconds since January
    1 of year 1, [nsec] the nanoseconds within the second. *)
Module time.

Record Time : Type := mkTime { ext : Z; nsec : Z }.

(** A [Duration] is an int64 count of nanoseconds. *)
Definition Nanosecond : Z := 1.

Definition isLeap (year : Z) : bool :=
  (year mod 4 =? 0) && (negb (year mod 100 =? 0) || (year mod 400 =? 0)).

Definition daysBefore (month : Z) : Z :=
  nth (Z.to_nat (month - 1))
      [0; 31; 59; 90; 120; 151; 181; 212; 243; 273; 304; 334] 0.

(** [time.Date] at normalised arguments, in UTC: the proleptic Gregorian
    day count from year 1, then seconds. *)
Definition Date (year month day hour min sec ns : Z) : Time :=
  let y := year - 1 in
  let d := 365 * y + y / 4 - y / 100 + y / 400
           + daysBefore month
           + (if isLeap year && (2 <? month) then 1 else 0)
           + (day - 1) in
  mkTime (d * 86400 + hour * 3600 + min * 60 + sec) ns.

(** [addSec]: the seconds are added in int64 and saturate on overflow. *)
Definition addSec (e d : Z) : Z :=
  let sum := int64 (e + d) in
  if Bool.eqb (e <? sum) (0 <? d) then sum
  else if 0 <? d then 2 ^ 63 - 1
  else - (2 ^ 63 - 1).

(** [t.Add(d)]; Go's [/] and [%] truncate towards zero. *)
Definition Add (t : Time) (d : Z) : Time :=
  let dsec := Z.quot d 1000000000 in
  let ns := nsec t + Z.rem d 1000000000 in
  if 1000000000 <=? ns then mkTime (addSec (ext t) (int64 (dsec + 1))) (ns - 1000000000)
  else if ns <? 0 then mkTime (addSec (ext t) (int64 (dsec - 1))) (ns + 1000000000)
  else mkTime (addSec (ext t) dsec) ns.

(** The instant as one unbounded count of nanoseconds since year 1. *)
Definition nanos (t : Time) : Z := ext t * 1000000000 + nsec t.

Definition normal (t : Time) : Prop := 0 <= nsec t < 1000000000.

End time.

(** Package strings, on the byte strings main.go passes. *)
Module strings.

(** [strings.Replace(s, old, new, -1)] for a one-byte [old]. *)
Fixpoint Replace (s : string) (old : ascii) (new : string) : string :=
  match s with
  | EmptyString => EmptyString
  | String c s' =>
      if Ascii.eqb c old then (new ++ Replace s' old new)%string
      else String c (Replace s' old new)
  end.

Definition HasPrefix (s prefix : string) : bool := String.prefix prefix s.

Definition TrimPrefix (s prefix : string) : string :=
  if HasPrefix s prefix
  then substring (String.length prefix) (String.length s - String.length prefix) s
  else s.

Definition HasSuffix (s suffix : string) : bool :=
  (String.length suffix <=? String.length s)%nat
  && String.eqb (substring (String.length s - String.length suffix)
                           (String.length suffix) s) suffix.

Definition TrimSuffix (s suffix : string) : string :=
  if HasSuffix s suffix
  then substring 0 (String.length s - String.length suffix) s
  else s.

(** [strings.ToUpper] on bytes: the letters a to z are mapped, every other
    byte below 0x80 is kept (main.go passes hex digits and dashes). *)
Definition upper (c : ascii) : ascii :=
  let n := nat_of_ascii c in
  if (97 <=? n)%nat && (n <=? 122)%nat then ascii_of_nat (n - 32) else c.

Fixpoint ToUpper (s : string) : string :=
  match s with
  | EmptyString => EmptyString
  | String c s' => String (upper c) (ToUpper s')
  end.

End strings.

(** ** Byte slices in a heap *)

(** The heap is the sequence of backing arrays allocated so far; an array is
    named by its position.  A slice value is [nil] or a view of a whole
    array: main.go allocates with [make] and writes only through such
    slices. *)
Abbreviation loc := nat (only parsing).
Abbreviation heap := (list (list byte)) (only parsing).

Inductive UUIDByte : Type :=
| nilSlice
| Slice (a : loc).

Definition bytesOf (h : heap) (u : UUIDByte) : list byte :=
  match u with
  | nilSlice => []
  | Slice a => match h !! a with
               | Some arr => arr
               | None => []
               end
  end.

(** Heap-passing computations that may panic. *)
Definition M (A : Type) : Type := heap -> result (A * heap).

#[export] Instance M_ret : MRet M := fun A a h => Ok (a, h).
#[export] Instance M_bind : MBind M := fun A B f m h =>
  match m h with
  | Ok (a, h') => f a h'
  | Panic => Panic
  | OutOfFuel => OutOfFuel
  end.

Definition lift {A : Type} (r : result A) : M A := fun h =>
  match r with
  | Ok a => Ok (a, h)
  | Panic => Panic
  | OutOfFuel => OutOfFuel
  end.

Definition load (u : UUIDByte) : M (list byte) := fun h => Ok (bytesOf h u, h).

(** [make([]byte, n)]: a fresh zeroed array. *)
Definition make (n : nat) : M UUIDByte := fun h =>
  Ok (Slice (length h), h ++ [replicate n x00]).

(** [u[i] = b]. *)
Definition store (u : UUIDByte) (i : nat) (b : byte) : M unit := fun h =>
  match u with
  | nilSlice => Panic
  | Slice a =>
      match h !! a with
      | Some arr =>
          if (i <? length arr)%nat then Ok (tt, <[a := <[i := b]> arr]> h)
          else Panic
      | None => Panic
      end
  end.

(** [copy(dst, src)]: the first [min(len(dst), len(src))] elements. *)
Definition copy (dst src : UUIDByte) : M nat := fun h =>
  let s := bytesOf h src in
  let d := bytesOf h dst in
  let n := Nat.min (length d) (length s) in
  match dst with
  | nilSlice => Ok (n, h)
  | Slice a => Ok (n, <[a := take n s ++ drop n d]> h)
  end.

(** Package encoding/hex. *)
Module hex.

Inductive error : Type :=
| InvalidByteError (c : ascii)
| ErrLength.

Definition hextable : string := "0123456789abcdef".

Definition digit (v : Z) : ascii :=
  match String.get (Z.to_nat v) hextable with
  | Some c => c
  | None => "0"%char
  end.

Fixpoint EncodeToString (src : list byte) : string :=
  match src with
  | [] => EmptyString
  | v :: src' =>
      String (digit (Z.shiftr (byteZ v) 4))
        (String (digit (Z.land (byteZ v) 0x0f)) (EncodeToString src'))
  end.

Definition fromHexChar (c : ascii) : option Z :=
  let n := Z.of_nat (nat_of_ascii c) in
  if (48 <=? n) && (n <=? 57) then Some (n - 48)
  else if (97 <=? n) && (n <=? 102) then Some (n - 97 + 10)
  else if (65 <=? n) && (n <=? 70) then Some (n - 65 + 10)
  else None.

Definition DecodedLen (x : nat) : nat := x / 2.

(** [Decode(dst, src)] from output position [i]: two digits make one
    byte, stored at [dst[i]]; the count of bytes written is returned with
    the error, if any. *)
Fixpoint Decode_from (dst : UUIDByte) (src : string) (i : nat)
  : M (nat * option error) :=
  match src with
  | EmptyString => mret (i, None)
  | String p EmptyString =>
      match fromHexChar p with
      | None => mret (i, Some (InvalidByteError p))
      | Some _ => mret (i, Some ErrLength)
      end
  | String p (String q rest) =>
      match fromHexChar p with
      | None => mret (i, Some (InvalidByteError p))
      | Some a =>
          match fromHexChar q with
          | None => mret (i, Some (InvalidByteError q))
          | Some b =>
              _ ← store dst i (toByte (Z.lor (Z.shiftl a 4) b));
              Decode_from dst rest (S i)
          end
      end
  end.

Definition Decode (dst : UUIDByte) (src : string) : M (nat * option error) :=
  Decode_from dst src 0.

End hex.

(** ** The time base and units *)

Definition UUIDTimeBase : time.Time := time.Date 1582 10 15 0 0 0 0.
Definition UUITTimeUnit : Z := 100 * time.Nanosecond.
Definition MaxDurationUnit : Z := (Z.shiftl 1 63 - 1) / 100.

(** ** Errors *)

(** What [WrapTraceableErrorf] formats: the message (format and arguments)
    and the wrapped error, if any. *)
Inductive message : Type :=
| UnableToDecode (src : string)
| WrongLength (src : string) (n : nat) (expected : nat).

Record error : Type := mkError { text : message; cause : option hex.error }.

Definition WrapTraceableErrorf (err : option hex.error) (msg : message) : error :=
  mkError msg err.

(** ** Rendering *)

(** The loop of [String]: [i] counts the fields, [lastIdx] is where the next
    field starts, [b] is the builder. *)
Fixpoint String_loop (u : list byte) (i : nat) (ls : list nat) (lastIdx : nat)
    (b : string) : result string :=
  match ls with
  | [] => Ok b
  | l :: ls' =>
      let b := if (0 <? i)%nat then (b ++ "-")%string else b in
      field ← subslice u lastIdx l;
      String_loop u (S i) ls' l (b ++ hex.EncodeToString field)%string
  end.

Definition UUIDByte_String (u : list byte) : result string :=
  b ← String_loop u 0
        [secondFieldIdx; versionIdx; variantIdx; macIdx; uuidLength] 0%nat
        EmptyString;
  mret (strings.ToUpper b).

(** ** Time information *)

(** The time-low loop, [n] iterations from index [i], with the running
    [timeLow] and multiplier [m], both uint32. *)
Fixpoint timeLow_loop (le : bool) (u : list byte) (n i : nat) (timeLow m : Z)
    : result Z :=
  match n with
  | O => Ok timeLow
  | S n' =>
      b ← index u i;
      let v := uint32 (byteZ b) in
      if le
      then timeLow_loop le u n' (S i) (uint32 (timeLow + uint32 (v * m)))
                        (uint32 (Z.shiftl m 8))
      else timeLow_loop le u n' (S i) (uint32 (uint32 (Z.shiftl timeLow 8) + v)) m
  end.

Definition timeLow (le : bool) (u : list byte) : result Z :=
  timeLow_loop le u secondFieldIdx 0 0 1.

Definition timeMid (le : bool) (u : list byte) : result Z :=
  let i := secondFieldIdx in
  b0 ← index u i;
  b1 ← index u (i + 1)%nat;
  mret (if le
        then uint16 (uint16 (byteZ b0) + uint16 (Z.shiftl (uint16 (byteZ b1)) 8))
        else uint16 (uint16 (Z.shiftl (uint16 (byteZ b0)) 8) + uint16 (byteZ b1))).

Definition timeHigh (le : bool) (u : list byte) : result Z :=
  let i := versionIdx in
  b0 ← index u i;
  b1 ← index u (i + 1)%nat;
  mret (if le
        then uint16 (uint16 (Z.land (byteZ b0) 0x0f)
                     + uint16 (Z.shiftl (uint16 (byteZ b1)) 4))
        else uint16 (uint16 (Z.shiftl (uint16 (Z.land (byteZ b0) 0x0f)) 8)
                     + uint16 (byteZ b1))).

(** The switch on the version that composes the tick count and the local
    identifier. *)
Definition timeUnits (version tLow tMid tHigh : Z) : Z :=
  if version =? 1
  then int64 (int64 (tLow + int64 (Z.shiftl tMid 32)) + int64 (Z.shiftl tHigh 48))
  else if version =? 2
  then int64 (int64 (Z.shiftl tMid 32) + int64 (Z.shiftl tHigh 48))
  else 0.

Definition localIDOf (version tLow : Z) : Z :=
  if version =? 2 then tLow else 0.

(** The loop that adds the ticks to the time base in steps a [Duration] can
    hold; [fuel] bounds the number of iterations. *)
Fixpoint addUnits (fuel : nat) (theTime : time.Time) (units : Z)
    : result time.Time :=
  if 0 <? units
  then match fuel with
       | O => OutOfFuel
       | S fuel' =>
           if MaxDurationUnit <? units
           then addUnits fuel' (time.Add theTime (MaxDurationUnit * UUITTimeUnit))
                         (int64 (units - MaxDurationUnit))
           else addUnits fuel' (time.Add theTime (int64 (units * UUITTimeUnit))) 0
       end
  else Ok theTime.

(** [TimeInfo] returns (theTime, clkSeq, domain, localID). *)
Definition TimeInfo (fuel : nat) (u : list byte) (le : bool)
    : result (time.Time * Z * Z * Z) :=
  version ← Version u;
  tLow ← timeLow le u;
  tMid ← timeMid le u;
  tHigh ← timeHigh le u;
  let units := timeUnits version tLow tMid tHigh in
  let localID := localIDOf version tLow in
  theTime ← addUnits fuel UUIDTimeBase units;
  mv ← MaskVariant u;
  let clkSeq := byteZ mv in
  if version =? 1
  then b9 ← index u (variantIdx + 1)%nat;
       mret (theTime, int64 (int64 (Z.shiftl clkSeq 8) + byteZ b9), 0, localID)
  else if version =? 2
  then b9 ← index u (variantIdx + 1)%nat;
       mret (theTime, clkSeq, byteZ b9, localID)
  else mret (theTime, clkSeq, 0, localID).

(** ** Payload *)

Definition DataInfo (u : UUIDByte) : M UUIDByte :=
  cu ← load u;
  b ← make (length cu);
  _ ← copy b u;
  cb ← load b;
  b6 ← lift (index cb versionIdx);
  _ ← store b versionIdx (toByte (Z.land (byteZ b6) 0x0f));
  cu' ← load u;
  mv ← lift (MaskVariant cu');
  _ ← store b variantIdx mv;
  mret b.

(** ** Parsing *)

(** [FromString], first part: the dashes are removed, then the braces or
    the URN prefix.  [s[0]] is an index expression. *)
Definition stripped (src : string) : result string :=
  let s := strings.Replace src "-"%char EmptyString in
  c ← index (list_ascii_of_string s) 0;
  mret (if Ascii.eqb c "{"%char
        then strings.TrimSuffix (strings.TrimPrefix s "{") "}"
        else strings.TrimPrefix s "urn:uuid:").

(** [FromString], second part: the receiver is assigned a fresh slice, the
    digits [s] are decoded into it, and the count is checked.  The slice
    returned is the value of [*u] when the method returns. *)
Definition decodeInto (src s : string) : M (UUIDByte * option error) :=
  u ← make (hex.DecodedLen (String.length s));
  '(n, err) ← hex.Decode u s;
  match err with
  | Some e => mret (u, Some (WrapTraceableErrorf (Some e) (UnableToDecode src)))
  | None =>
      if negb (n =? uuidLength)%nat
      then mret (u, Some (WrapTraceableErrorf None (WrongLength src n uuidLength)))
      else mret (u, None)
  end.

Definition FromString (src : string) : M (UUIDByte * option error) :=
  s ← lift (stripped src);
  decodeInto src s.

(** ** Labels *)

(** Package fmt: the verb [%d] on an integer. *)
Module fmt.

Definition d (z : Z) : string := NilZero.string_of_int (Z.to_int z).

End fmt.

(** [UUIDVariant.String]. *)
Definition UUIDVariant_String (u : UUIDVariant) : string :=
  match u with
  | VariantNCS => "Variant-0 (NCS)"
  | VariantRFC4122 => "Variant-1 (RFC4122)"
  | VariantMicrosoft => "Variant-2 (Microsoft)"
  | _ => "FutureVariants"
  end.

(** [UUIDVersion.String]. *)
Definition UUIDVersion_String (v : Z) : string :=
  if v <? 0 then ("<Invalid_Version:" ++ fmt.d v ++ ">")%string
  else if v =? 0 then "Version-Null_UUID"%string
  else ("Version-" ++ fmt.d v)%string.

(** ** Hardware addresses *)

(** Package net: [HardwareAddr.String], two lower-case hex digits for each
    byte with a colon between bytes, and the empty string for no bytes. *)
Module net.

Definition hexDigit : string := "0123456789abcdef".

Definition digit (v : Z) : ascii :=
  match String.get (Z.to_nat v) hexDigit with
  | Some c => c
  | None => "0"%char
  end.

(** The loop over the bytes, [i] being the index of the first of [a]. *)
Fixpoint String_loop (i : nat) (a : list byte) : string :=
  match a with
  | [] => EmptyString
  | b :: a' =>
      let rest :=
        String (digit (Z.shiftr (byteZ b) 4))
          (String (digit (Z.land (byteZ b) 0xF)) (String_loop (S i) a')) in
      if (0 <? i)%nat then String ":"%char rest else rest
  end.

Definition HardwareAddr_String (a : list byte) : string :=
  if (length a =? 0)%nat then EmptyString else String_loop 0 a.

End net.

(** [MACAddrBytes.ToString]; the receiver is [None] when it is [nil]. *)
Definition MACAddrBytes_ToString (m : option (list byte)) (delimiter : string)
    (useUpper : bool) : string :=
  match m with
  | None => "<Null_MAC_Address>"%string
  | Some a =>
      let s := net.HardwareAddr_String a in
      let s := if useUpper then strings.ToUpper s else s in
      if negb (String.eqb delimiter ":") then strings.Replace s ":"%char delimiter
      else s
  end.

Definition MACAddrBytes_String (m : option (list byte)) : string :=
  MACAddrBytes_ToString m ":" false.

(** [copy(dst, src)] from the bytes of a sub-slice. *)
Definition copyFrom (dst : UUIDByte) (src : list byte) : M nat := fun h =>
  let d := bytesOf h dst in
  let n := Nat.min (length d) (length src) in
  match dst with
  | nilSlice => Ok (n, h)
  | Slice a => Ok (n, <[a := take n src ++ drop n d]> h)
  end.

(** [MacAddr]: the result is a slice of a new array, or [nil]. *)
Definition MacAddr (u : UUIDByte) : M UUIDByte :=
  cu ← load u;
  version ← lift (Version cu);
  if version <=? 2
  then theMAC ← make macLength;
       tail ← lift (subslice cu macIdx (length cu));
       _ ← copyFrom theMAC tail;
       mret theMAC
  else mret nilSlice.

(** ** The report *)

(** [strings.Join]. *)
Fixpoint Join (elems : list string) (sep : string) : string :=
  match elems with
  | [] => EmptyString
  | [e] => e
  | e :: rest => (e ++ sep ++ Join rest sep)%string
  end.

(** The verb [%02x] on a byte. *)
Definition Sprintf02x (d : byte) : string :=
  String (hex.digit (Z.shiftr (byteZ d) 4))
    (String (hex.digit (Z.land (byteZ d) 0x0f)) EmptyString).

(** The line feed that ends each line of the report. *)
Definition nl : string := String (ascii_of_nat 10) EmptyString.

(** What [%s] is given for a [MACAddrBytes]: [None] for [nil]. *)
Definition macOf (h : heap) (m : UUIDByte) : option (list byte) :=
  match m with
  | nilSlice => None
  | Slice _ => Some (bytesOf h m)
  end.

(** [Info], over the rendering [timeString] that [%s] prints for a
    [time.Time].  The builder is [b]; [%s] prints a variant, a version and a
    hardware address through their [String] methods. *)
Definition Info (timeString : time.Time -> string) (fuel : nat) (u : UUIDByte)
    : M string :=
  cu ← load u;
  s ← lift (UUIDByte_String cu);
  let b := ("UUID: " ++ s ++ nl)%string in
  variant ← lift (Variant cu);
  let b := (b ++ " * Variant: " ++ UUIDVariant_String variant ++ nl)%string in
  version ← lift (Version cu);
  let b := (b ++ " * Version: " ++ UUIDVersion_String version ++ nl)%string in
  if (version =? 1) || (version =? 2)
  then
    mac ← MacAddr u;
    m ← (fun h => Ok (macOf h mac, h));
    let b := (b ++ " * MAC Address: " ++ MACAddrBytes_String m ++ nl)%string in
    cu ← load u;
    '(ts, clk, domain, localID) ← lift (TimeInfo fuel cu false);
    let b := (b ++ " * Timestamp: " ++ timeString ts ++ nl)%string in
    if version =? 1
    then mret (b ++ " * Clock Sequence: " ++ fmt.d clk ++ nl)%string
    else mret (b ++ " * Local ID: " ++ fmt.d localID ++ nl
                 ++ " * Domain: " ++ fmt.d domain ++ nl
                 ++ " * Clock Sequence: " ++ fmt.d clk ++ nl)%string
  else if (version =? 3) || (version =? 4) || (version =? 5)
  then
    data ← DataInfo u;
    cd ← load data;
    let name := if version =? 4 then "Random"%string else "Hash"%string in
    let s := map Sprintf02x cd in
    mret (b ++ " * " ++ name ++ " Data (" ++ fmt.d (Z.of_nat (length cd)) ++ "): "
            ++ Join s ":" ++ nl)%string
  else mret b.

(** ** Vocabulary of the statements *)

(** The two hex digits of a byte, as [EncodeToString] takes them. *)
Definition hi (b : byte) : Z := Z.shiftr (byteZ b) 4.
Definition lo (b : byte) : Z := Z.land (byteZ b) 0x0f.

(** A character that [FromString] gives no meaning to: not a dash, not a
    brace, and not the first letter of the URN prefix. *)
Definition plain (c : ascii) : Prop :=
  c <> "-"%char /\ c <> "{"%char /\ c <> "}"%char /\ c <> "u"%char.

Fixpoint all_plain (s : string) : Prop :=
  match s with
  | EmptyString => True
  | String c s' => plain c /\ all_plain s'
  end.

(** How many high bits of byte 8 name the variant: one when the top bit is
    0, two when the top bits are 10, three otherwise. *)
Definition variantBits (b : Z) : Z :=
  if negb (Z.testbit b 7) then 1
  else if negb (Z.testbit b 6) then 2
  else 3.

(** [s] spells the bytes [bs] in hex, in either case. *)
Definition spells (s : string) (bs : list byte) : Prop :=
  strings.ToUpper s = strings.ToUpper (hex.EncodeToString bs).

(** The tick count the version selects, over the unbounded integers. *)
Definition ticksOf (version tLow tMid tHigh : Z) : Z :=
  if version =? 1 then tLow + tMid * 2 ^ 32 + tHigh * 2 ^ 48
  else if version =? 2 then tMid * 2 ^ 32 + tHigh * 2 ^ 48
  else 0.

(** The buffers of the first two calls in [main], and a version-1 buffer
    whose only non-zero time byte is byte 7. *)
Definition sample_v1 : list byte :=
  [x8b; xe4; xdf; x61; x93; xca; x11; xd2; xaa; x0d; x00; xe0; x98; x03; x2b; x8c].
Definition sample_v2 : list byte :=
  [x8b; xe4; xdf; x61; x93; xca; x21; xd2; xaa; x0d; x00; xe0; x98; x03; x2b; x8c].
Definition sample_byte7 : list byte :=
  [x00; x00; x00; x00; x00; x00; x10; x01; x80; x00; x00; x00; x00; x00; x00; x00].

(** The upper-case hex digits. *)
Definition upperHex (c : ascii) : bool :=
  let n := nat_of_ascii c in
  ((48 <=? n) && (n <=? 57) || (65 <=? n) && (n <=? 70))%nat.

(** The first three lines of the report: rendering, variant, version. *)
Definition header (s : string) (variant : UUIDVariant) (version : Z) : string :=
  ((("UUID: " ++ s ++ nl)
    ++ " * Variant: " ++ UUIDVariant_String variant ++ nl)
   ++ " * Version: " ++ UUIDVersion_String version ++ nl)%string.

(** The buffer of the fourth call in [main], of version 4. *)
Definition sample_v4 : list byte :=
  [x8b; xe4; xdf; x61; x93; xca; x41; xd2; xaa; x0d; x00; xe0; x98; x03; x2b; x8c].

(** * Properties *)

(** ** Bytes and fixed-width integers *)

Lemma byteZ_range (b : byte) : 0 <= byteZ b < 256.
Proof. unfold byteZ. pose proof (Byte.to_N_bounded b). lia. Qed.

Lemma byteZ_toByte (z : Z) : byteZ (toByte z) = z mod 2 ^ 8.
Proof.
  unfold toByte, uint8, byteZ.
  pose proof (Z.mod_pos_bound z (2 ^ 8) ltac:(lia)) as Hm.
  destruct (Byte.of_N (Z.to_N (z mod 2 ^ 8))) as [b|] eqn:E.
  - apply Byte.to_of_N in E. lia.
  - apply Byte.of_N_None_iff in E. lia.
Qed.

Lemma uint32_small (z : Z) : 0 <= z < 2 ^ 32 -> uint32 z = z.
Proof. intros. apply Z.mod_small. assumption. Qed.

Lemma uint16_small (z : Z) : 0 <= z < 2 ^ 16 -> uint16 z = z.
Proof. intros. apply Z.mod_small. assumption. Qed.

Lemma int64_small (z : Z) : - 2 ^ 63 <= z < 2 ^ 63 -> int64 z = z.
Proof. intros. unfold int64. rewrite Z.mod_small; lia. Qed.

Lemma land15_range (z : Z) : 0 <= z -> 0 <= Z.land z 0x0f < 16.
Proof.
  intros. change 15 with (Z.ones 4). rewrite Z.land_ones by lia.
  apply Z.mod_pos_bound. reflexivity.
Qed.

(** Removes the wrap-arounds of the goal from the inside out, each one under
    the bound that [lia] finds for its argument. *)
Ltac strip_wraps :=
  repeat match goal with
    | |- context [uint32 ?z] =>
        lazymatch z with
        | context [uint32 _] => fail
        | _ => rewrite (uint32_small z) by lia
        end
    | |- context [uint16 ?z] =>
        lazymatch z with
        | context [uint16 _] => fail
        | _ => rewrite (uint16_small z) by lia
        end
    | |- context [int64 ?z] =>
        lazymatch z with
        | context [int64 _] => fail
        | _ => rewrite (int64_small z) by lia
        end
    end.

Lemma hi_range (b : byte) : 0 <= hi b < 16.
Proof. destruct b; cbv; split; congruence. Qed.

Lemma lo_range (b : byte) : 0 <= lo b < 16.
Proof. destruct b; cbv; split; congruence. Qed.

Lemma hi_lo_byte (b : byte) : toByte (Z.lor (Z.shiftl (hi b) 4) (lo b)) = b.
Proof. destruct b; reflexivity. Qed.

Lemma nibble_cases (v : Z) : 0 <= v < 16 ->
  v = 0 \/ v = 1 \/ v = 2 \/ v = 3 \/ v = 4 \/ v = 5 \/ v = 6 \/ v = 7 \/
  v = 8 \/ v = 9 \/ v = 10 \/ v = 11 \/ v = 12 \/ v = 13 \/ v = 14 \/ v = 15.
Proof. lia. Qed.

(** A buffer of sixteen bytes is sixteen bytes. *)
Lemma length16 {A : Type} (u : list A) : length u = 16%nat ->
  exists b0 b1 b2 b3 b4 b5 b6 b7 b8 b9 b10 b11 b12 b13 b14 b15,
    u = [b0; b1; b2; b3; b4; b5; b6; b7; b8; b9; b10; b11; b12; b13; b14; b15].
Proof.
  intros H.
  do 16 (destruct u as [|? u]; [discriminate H|]).
  destruct u; [|discriminate H]. repeat eexists.
Qed.

Ltac explode u H :=
  destruct (length16 u H) as
    (?b0 & ?b1 & ?b2 & ?b3 & ?b4 & ?b5 & ?b6 & ?b7 & ?b8 & ?b9 & ?b10 & ?b11
     & ?b12 & ?b13 & ?b14 & ?b15 & ->).

(** ** Field extraction *)

Lemma Variant_16 (u : list byte) (b : byte) :
  u !! variantIdx = Some b ->
  Variant u = Ok (let v := byteZ b / 16 in
                  if v <=? 7 then VariantNCS
                  else if (8 <=? v) && (v <=? 11) then VariantRFC4122
                  else if (12 <=? v) && (v <=? 13) then VariantMicrosoft
                  else VariantFuture).
Proof.
  intros Hb. unfold Variant, index. rewrite Hb. cbn [mbind result_bind].
  rewrite Z.shiftr_div_pow2 by lia. reflexivity.
Qed.

(** C3. For every 16-byte buffer, [Variant] is decided by the value of byte
    8 alone: 0x00-0x7F is NCS, 0x80-0xBF is RFC4122, 0xC0-0xDF is Microsoft,
    0xE0-0xFF is Future.  The four ranges cover every byte, and the result
    does not change when byte 6, which holds the version nibble, is
    replaced. *)
Theorem Variant_by_byte8 (u : list byte) :
  length u = 16%nat ->
  exists b : byte, u !! 8%nat = Some b /\
    (0x00 <= byteZ b <= 0x7F -> Variant u = Ok VariantNCS) /\
    (0x80 <= byteZ b <= 0xBF -> Variant u = Ok VariantRFC4122) /\
    (0xC0 <= byteZ b <= 0xDF -> Variant u = Ok VariantMicrosoft) /\
    (0xE0 <= byteZ b <= 0xFF -> Variant u = Ok VariantFuture) /\
    0x00 <= byteZ b <= 0xFF /\
    forall v : byte, Variant (<[versionIdx := v]> u) = Variant u.
Proof.
  intros H. explode u H. exists b8. split; [reflexivity|].
  pose proof (byteZ_range b8) as Hb.
  pose proof (Variant_16
    [b0; b1; b2; b3; b4; b5; b6; b7; b8; b9; b10; b11; b12; b13; b14; b15]
    b8 eq_refl) as Hv.
  repeat split; try lia; try (intros v; reflexivity).
  all: intros Hr; rewrite Hv; cbv zeta; f_equal.
  all: repeat match goal with
         | |- context [?a <=? ?b] => destruct (Z.leb_spec a b)
         end; cbn [andb]; try reflexivity; exfalso; Z.div_mod_to_equations; lia.
Qed.

Lemma Variant_by_byte8_witness : Variant sample_v1 = Ok VariantRFC4122.
Proof.
  destruct (Variant_by_byte8 sample_v1 eq_refl) as (b & Hb & _ & H & _).
  injection Hb as <-. apply H. vm_compute. split; discriminate.
Defined.

Lemma MaskVariant_byte (b : byte) :
  byteZ (toByte (if Z.land (byteZ b) 0x80 =? 0 then Z.land (byteZ b) 0x7f
                 else if Z.land (byteZ b) 0xc0 =? 0x80 then Z.land (byteZ b) 0x3f
                 else Z.land (byteZ b) 0x1f))
  = Z.land (byteZ b) (Z.ones (8 - variantBits (byteZ b))).
Proof. destruct b; reflexivity. Qed.

Lemma variantBits_range (b : Z) : 1 <= variantBits b <= 3.
Proof. unfold variantBits. destruct (Z.testbit b 7), (Z.testbit b 6); cbn; lia. Qed.

(** C4. For every 16-byte buffer, [MaskVariant] returns byte 8 with its
    [k] highest bits cleared and every other bit as it was, where [k] is 1
    when the top bit is 0, 2 when the top two bits are 10, and 3 otherwise. *)
Theorem MaskVariant_clears_high_bits (u : list byte) :
  length u = 16%nat ->
  exists b m : byte, u !! 8%nat = Some b /\ MaskVariant u = Ok m /\
    let k := if negb (Z.testbit (byteZ b) 7) then 1
             else if Z.testbit (byteZ b) 7 && negb (Z.testbit (byteZ b) 6) then 2
             else 3 in
    forall i : Z, 0 <= i ->
      Z.testbit (byteZ m) i = if i <? 8 - k then Z.testbit (byteZ b) i else false.
Proof.
  intros H. explode u H. exists b8. eexists.
  split; [reflexivity|]. split; [reflexivity|].
  intros k i Hi. rewrite MaskVariant_byte.
  assert (Hk : k = variantBits (byteZ b8)).
  { unfold k, variantBits.
    destruct (Z.testbit (byteZ b8) 7), (Z.testbit (byteZ b8) 6); reflexivity. }
  rewrite <- Hk. pose proof (variantBits_range (byteZ b8)) as Hr. rewrite <- Hk in Hr.
  rewrite Z.land_spec. destruct (Z.ltb_spec i (8 - k)).
  - rewrite Z.ones_spec_low by lia. apply andb_true_r.
  - rewrite Z.ones_spec_high by lia. apply andb_false_r.
Qed.

Lemma MaskVariant_clears_high_bits_witness :
  MaskVariant sample_v1 = Ok x2a /\ Z.testbit (byteZ x2a) 7 = false.
Proof.
  destruct (MaskVariant_clears_high_bits sample_v1 eq_refl) as (b & m & Hb & Hm & H).
  split; [reflexivity|]. injection Hb as <-. injection Hm as <-.
  exact (H 7 ltac:(discriminate)).
Defined.

(** ** Time information *)

Lemma timeLow_16 (le : bool) (u : list byte) b0 b1 b2 b3 :
  u !! 0%nat = Some b0 -> u !! 1%nat = Some b1 -> u !! 2%nat = Some b2 -> u !! 3%nat = Some b3 ->
  timeLow le u =
    Ok (if le
        then byteZ b0 + byteZ b1 * 2 ^ 8 + byteZ b2 * 2 ^ 16 + byteZ b3 * 2 ^ 24
        else byteZ b0 * 2 ^ 24 + byteZ b1 * 2 ^ 16 + byteZ b2 * 2 ^ 8 + byteZ b3).
Proof.
  intros H0 H1 H2 H3.
  unfold timeLow, secondFieldIdx. cbn [timeLow_loop]. unfold index.
  rewrite H0, H1, H2, H3. cbn [mbind result_bind].
  pose proof (byteZ_range b0). pose proof (byteZ_range b1).
  pose proof (byteZ_range b2). pose proof (byteZ_range b3).
  destruct le; f_equal.
  - rewrite !Z.shiftl_mul_pow2 by lia.
    strip_wraps. lia.
  - rewrite !Z.shiftl_mul_pow2 by lia.
    strip_wraps. lia.
Qed.

Lemma timeMid_16 (le : bool) (u : list byte) b4 b5 :
  u !! 4%nat = Some b4 -> u !! 5%nat = Some b5 ->
  timeMid le u =
    Ok (if le then byteZ b4 + byteZ b5 * 2 ^ 8 else byteZ b4 * 2 ^ 8 + byteZ b5).
Proof.
  intros H4 H5. unfold timeMid, secondFieldIdx, index.
  change (4 + 1)%nat with 5%nat. rewrite H4, H5. cbn [mbind result_bind].
  pose proof (byteZ_range b4). pose proof (byteZ_range b5).
  unfold mret, result_ret. destruct le; f_equal.
  - rewrite (uint16_small (byteZ b5)) by lia. rewrite !Z.shiftl_mul_pow2 by lia.
    strip_wraps. lia.
  - rewrite (uint16_small (byteZ b4)) by lia. rewrite !Z.shiftl_mul_pow2 by lia.
    strip_wraps. lia.
Qed.

Lemma timeHigh_16 (le : bool) (u : list byte) b6 b7 :
  u !! 6%nat = Some b6 -> u !! 7%nat = Some b7 ->
  timeHigh le u =
    Ok (if le then Z.land (byteZ b6) 0x0f + byteZ b7 * 2 ^ 4
        else Z.land (byteZ b6) 0x0f * 2 ^ 8 + byteZ b7).
Proof.
  intros H6 H7. unfold timeHigh, versionIdx, index.
  change (6 + 1)%nat with 7%nat. rewrite H6, H7. cbn [mbind result_bind].
  pose proof (byteZ_range b6). pose proof (byteZ_range b7).
  pose proof (land15_range (byteZ b6) ltac:(lia)).
  unfold mret, result_ret. destruct le; f_equal.
  - rewrite (uint16_small (byteZ b7)) by lia. rewrite !Z.shiftl_mul_pow2 by lia.
    strip_wraps. lia.
  - rewrite (uint16_small (Z.land _ _)) by lia. rewrite !Z.shiftl_mul_pow2 by lia.
    strip_wraps. lia.
Qed.

Lemma timeUnits_exact (version tLow tMid tHigh : Z) :
  0 <= tLow < 2 ^ 32 -> 0 <= tMid < 2 ^ 16 -> 0 <= tHigh < 2 ^ 12 ->
  timeUnits version tLow tMid tHigh =
    if version =? 1 then tLow + tMid * 2 ^ 32 + tHigh * 2 ^ 48
    else if version =? 2 then tMid * 2 ^ 32 + tHigh * 2 ^ 48
    else 0.
Proof.
  intros. unfold timeUnits. rewrite !Z.shiftl_mul_pow2 by lia.
  destruct (version =? 1); [|destruct (version =? 2)]; try reflexivity.
  - strip_wraps. lia.
  - strip_wraps. lia.
Qed.

Lemma Add_exact (t : time.Time) (d : Z) :
  time.normal t -> 0 <= d < 2 ^ 63 -> 0 <= time.ext t ->
  time.nanos t + d < 2 ^ 62 * 1000000000 ->
  time.normal (time.Add t d) /\ time.nanos (time.Add t d) = time.nanos t + d
  /\ 0 <= time.ext (time.Add t d).
Proof.
  unfold time.normal, time.nanos, time.Add. intros Hn Hd He Hb.
  rewrite Z.quot_div_nonneg by lia. rewrite Z.rem_mod_nonneg by lia.
  pose proof (Z.div_mod d 1000000000 ltac:(lia)) as Hdm.
  pose proof (Z.mod_pos_bound d 1000000000 ltac:(lia)) as Hm.
  set (q := d / 1000000000) in *. set (r := d mod 1000000000) in *.
  assert (Hq : 0 <= q) by (subst q; apply Z.div_pos; lia).
  assert (Hs : forall x, 0 <= x <= q + 1 -> time.addSec (time.ext t) x = time.ext t + x).
  { intros x Hx. unfold time.addSec. rewrite int64_small by lia.
    destruct (Z.ltb_spec (time.ext t) (time.ext t + x)), (Z.ltb_spec 0 x);
      cbn [Bool.eqb]; lia. }
  destruct (Z.leb_spec 1000000000 (time.nsec t + r)).
  - rewrite (int64_small (q + 1)) by lia. cbn [time.ext time.nsec].
    rewrite Hs by lia. lia.
  - destruct (Z.ltb_spec (time.nsec t + r) 0); [lia|].
    cbn [time.ext time.nsec]. rewrite Hs by lia. lia.
Qed.

Lemma addUnits_exact (fuel : nat) : forall (t : time.Time) (units : Z),
  time.normal t -> 0 <= time.ext t ->
  units <= Z.of_nat fuel * MaxDurationUnit -> units < 2 ^ 63 ->
  time.nanos t + units * 100 < 2 ^ 62 * 1000000000 ->
  exists t', addUnits fuel t units = Ok t' /\ time.normal t' /\
    time.nanos t' = time.nanos t + Z.max 0 units * 100.
Proof.
  assert (HM : MaxDurationUnit = 92233720368547758) by reflexivity.
  induction fuel as [|fuel IH]; intros t units Hn He Hf Hu Hb.
  - exists t. cbn [addUnits]. destruct (Z.ltb_spec 0 units); [lia|].
    repeat split; try apply Hn; lia.
  - cbn [addUnits]. destruct (Z.ltb_spec 0 units).
    2:{ exists t. repeat split; try apply Hn; lia. }
    unfold UUITTimeUnit, time.Nanosecond. rewrite HM.
    destruct (Z.ltb_spec 92233720368547758 units).
    + rewrite int64_small by lia.
      destruct (Add_exact t (92233720368547758 * (100 * 1)) Hn ltac:(lia) He ltac:(lia))
        as (Hn' & Hx & He').
      destruct (IH _ (units - 92233720368547758) Hn' He' ltac:(lia) ltac:(lia) ltac:(lia))
        as (t' & Ht' & Hn'' & Hx').
      exists t'. split; [exact Ht'|]. split; [exact Hn''|]. lia.
    + rewrite int64_small by lia.
      destruct (Add_exact t (units * (100 * 1)) Hn ltac:(lia) He ltac:(lia))
        as (Hn' & Hx & He').
      destruct (IH _ 0 Hn' He' ltac:(lia) ltac:(lia) ltac:(lia)) as (t' & Ht' & Hn'' & Hx').
      exists t'. split; [exact Ht'|]. split; [exact Hn''|]. lia.
Qed.

Lemma TimeInfo_closed (fuel : nat) (u : list byte) (le : bool) :
  length u = 16%nat -> (13 <= fuel)%nat ->
  exists version tLow tMid tHigh mv b9 theTime,
    Version u = Ok version /\ timeLow le u = Ok tLow /\ timeMid le u = Ok tMid /\
    timeHigh le u = Ok tHigh /\ MaskVariant u = Ok mv /\ u !! 9%nat = Some b9 /\
    0 <= tLow < 2 ^ 32 /\ 0 <= tMid < 2 ^ 16 /\ 0 <= tHigh < 2 ^ 12 /\
    TimeInfo fuel u le =
      Ok (theTime,
          if version =? 1 then byteZ mv * 2 ^ 8 + byteZ b9 else byteZ mv,
          if version =? 2 then byteZ b9 else 0,
          if version =? 2 then tLow else 0) /\
    time.normal theTime /\
    time.nanos theTime =
      time.nanos UUIDTimeBase + ticksOf version tLow tMid tHigh * 100.
Proof.
  intros H Hfuel. explode u H.
  set (u := [b0; b1; b2; b3; b4; b5; b6; b7; b8; b9; b10; b11; b12; b13; b14; b15]).
  pose proof (timeLow_16 le u b0 b1 b2 b3 eq_refl eq_refl eq_refl eq_refl) as HL.
  pose proof (timeMid_16 le u b4 b5 eq_refl eq_refl) as HMd.
  pose proof (timeHigh_16 le u b6 b7 eq_refl eq_refl) as HH.
  pose proof (byteZ_range b0). pose proof (byteZ_range b1).
  pose proof (byteZ_range b2). pose proof (byteZ_range b3).
  pose proof (byteZ_range b4). pose proof (byteZ_range b5).
  pose proof (byteZ_range b6). pose proof (byteZ_range b7).
  pose proof (byteZ_range b9).
  pose proof (land15_range (byteZ b6) ltac:(lia)).
  destruct (MaskVariant u) as [mv| |] eqn:Hmv; try discriminate Hmv.
  pose proof (byteZ_range mv).
  match type of HL with _ = Ok ?x => set (tLow := x) in * end.
  match type of HMd with _ = Ok ?x => set (tMid := x) in * end.
  match type of HH with _ = Ok ?x => set (tHigh := x) in * end.
  assert (0 <= tLow < 2 ^ 32) by (subst tLow; destruct le; lia).
  assert (0 <= tMid < 2 ^ 16) by (subst tMid; destruct le; lia).
  assert (0 <= tHigh < 2 ^ 12) by (subst tHigh; destruct le; lia).
  set (version := Z.shiftr (byteZ b6) 4).
  assert (Hticks : 0 <= ticksOf version tLow tMid tHigh < 2 ^ 60).
  { unfold ticksOf. destruct (version =? 1); [|destruct (version =? 2)]; lia. }
  destruct (addUnits_exact fuel UUIDTimeBase (ticksOf version tLow tMid tHigh))
    as (theTime & Hloop & Hnorm & Hnanos).
  { unfold time.normal. change (time.nsec UUIDTimeBase) with 0. lia. }
  { change (time.ext UUIDTimeBase) with 49916304000. lia. }
  { change MaxDurationUnit with 92233720368547758. lia. }
  { lia. }
  { change (time.nanos UUIDTimeBase) with 49916304000000000000. lia. }
  exists version, tLow, tMid, tHigh, mv, b9, theTime.
  repeat (split; [first [reflexivity | assumption]|]).
  split.
  - unfold TimeInfo. change (Version u) with (Ok version).
    rewrite HL, HMd, HH, Hmv. cbn [mbind result_bind].
    rewrite timeUnits_exact by assumption. fold (ticksOf version tLow tMid tHigh).
    rewrite Hloop. unfold localIDOf.
    change (index u (variantIdx + 1)) with (Ok b9).
    destruct (version =? 1) eqn:E1; [|destruct (version =? 2) eqn:E2].
    + apply Z.eqb_eq in E1. rewrite E1. cbn [mbind result_bind mret result_ret Z.eqb Pos.eqb].
      rewrite Z.shiftl_mul_pow2 by lia. strip_wraps. reflexivity.
    + reflexivity.
    + reflexivity.
  - split; [exact Hnorm|]. rewrite Hnanos. lia.
Qed.

(** Every tick count below 2^60 is the tick count of a version-1 buffer. *)
Lemma v1_ticks_onto (ticks : Z) :
  0 <= ticks < 2 ^ 60 ->
  exists u : list byte,
    length u = 16%nat /\ Version u = Ok 1 /\
    exists tLow tMid tHigh,
      timeLow false u = Ok tLow /\ timeMid false u = Ok tMid /\
      timeHigh false u = Ok tHigh /\
      tLow + Z.shiftl tMid 32 + Z.shiftl tHigh 48 = ticks.
Proof.
  intros Ht.
  set (u := [toByte (ticks / 2 ^ 24); toByte (ticks / 2 ^ 16); toByte (ticks / 2 ^ 8);
             toByte ticks; toByte (ticks / 2 ^ 40); toByte (ticks / 2 ^ 32);
             toByte (16 + ticks / 2 ^ 56); toByte (ticks / 2 ^ 48);
             x80; x00; x00; x00; x00; x00; x00; x00]).
  assert (H6 : byteZ (toByte (16 + ticks / 2 ^ 56)) = 16 + ticks / 2 ^ 56).
  { rewrite byteZ_toByte. apply Z.mod_small. Z.div_mod_to_equations. lia. }
  exists u. split; [reflexivity|]. split.
  { unfold Version, index. cbn [u lookup list_lookup versionIdx mbind result_bind].
    rewrite H6, Z.shiftr_div_pow2 by lia. unfold mret, result_ret. f_equal.
    Z.div_mod_to_equations. lia. }
  do 3 eexists.
  split; [apply (timeLow_16 false u _ _ _ _ eq_refl eq_refl eq_refl eq_refl)|].
  split; [apply (timeMid_16 false u _ _ eq_refl eq_refl)|].
  split; [apply (timeHigh_16 false u _ _ eq_refl eq_refl)|].
  cbv iota. rewrite H6. rewrite !byteZ_toByte.
  change 15 with (Z.ones 4). rewrite Z.land_ones by lia.
  rewrite !Z.shiftl_mul_pow2 by lia.
  Z.div_mod_to_equations. lia.
Qed.

Lemma normal_unique (t t' : time.Time) :
  time.normal t -> time.normal t' -> time.nanos t = time.nanos t' -> t = t'.
Proof.
  destruct t as [e n], t' as [e' n']. unfold time.normal, time.nanos.
  cbn [time.ext time.nsec]. intros Hn Hn' E.
  assert (e = e') by lia. assert (n = n') by lia. congruence.
Qed.

(** C1. For every version-1 buffer of 16 bytes and either byte order, the
    tick count timeLow + timeMid<<32 + timeHigh<<48 lies in [0, 2^60), the
    loop of [TimeInfo] ends within 13 iterations, and the time returned is
    the time base plus exactly ticks times 100 nanoseconds: dividing the
    distance to the base by 100 gives the ticks back, and zero ticks give the
    base itself. *)
Theorem TimeInfo_v1_timestamp_exact (fuel : nat) (u : list byte) (le : bool) :
  length u = 16%nat -> Version u = Ok 1 -> (13 <= fuel)%nat ->
  exists tLow tMid tHigh theTime clkSeq domain localID,
    timeLow le u = Ok tLow /\ timeMid le u = Ok tMid /\ timeHigh le u = Ok tHigh /\
    let ticks := tLow + Z.shiftl tMid 32 + Z.shiftl tHigh 48 in
    0 <= ticks < 2 ^ 60 /\
    TimeInfo fuel u le = Ok (theTime, clkSeq, domain, localID) /\
    time.normal theTime /\
    time.nanos theTime = time.nanos UUIDTimeBase + ticks * 100 /\
    (time.nanos theTime - time.nanos UUIDTimeBase) / 100 = ticks /\
    (ticks = 0 -> theTime = UUIDTimeBase).
Proof.
  intros H Hv Hfuel.
  destruct (TimeInfo_closed fuel u le H Hfuel)
    as (version & tLow & tMid & tHigh & mv & b9 & theTime & Hver & HL & HM & HH
        & _ & _ & RL & RM & RH & Hrun & Hnorm & Hnanos).
  rewrite Hv in Hver. injection Hver as <-.
  change (ticksOf 1 tLow tMid tHigh) with (tLow + tMid * 2 ^ 32 + tHigh * 2 ^ 48) in Hnanos.
  exists tLow, tMid, tHigh, theTime. do 3 eexists.
  split; [exact HL|]. split; [exact HM|]. split; [exact HH|].
  cbv zeta. rewrite !Z.shiftl_mul_pow2 by lia.
  split; [lia|]. split; [exact Hrun|]. split; [exact Hnorm|]. split; [exact Hnanos|].
  split.
  - rewrite Hnanos.
    replace (time.nanos UUIDTimeBase + (tLow + tMid * 2 ^ 32 + tHigh * 2 ^ 48) * 100
             - time.nanos UUIDTimeBase)
      with ((tLow + tMid * 2 ^ 32 + tHigh * 2 ^ 48) * 100) by lia.
    apply Z.div_mul. discriminate.
  - intros Hz. apply normal_unique; [exact Hnorm| |lia].
    unfold time.normal. change (time.nsec UUIDTimeBase) with 0. lia.
Qed.

Lemma TimeInfo_v1_timestamp_exact_witness :
  exists theTime clkSeq domain localID,
    TimeInfo 13 sample_v1 false = Ok (theTime, clkSeq, domain, localID) /\
    time.nanos theTime = time.nanos UUIDTimeBase + 0x1d293ca8be4df61 * 100.
Proof.
  destruct (TimeInfo_v1_timestamp_exact 13 sample_v1 false eq_refl eq_refl (le_n 13))
    as (tL & tM & tH & t & c & d & l & HL & HM & HH & _ & HT & _ & Hx & _).
  injection HL as <-. injection HM as <-. injection HH as <-.
  exists t, c, d, l. split; [exact HT|exact Hx].
Defined.

(** C5 as the code has it.  For every 16-byte buffer, [TimeInfo] reads
    time-high from bytes 6 and 7 with the version nibble of byte 6 masked
    out, as a 12-bit integer.  Most significant first, the masked byte 6 is
    shifted left 8 bits and byte 7 is added.  In little-endian order the
    masked byte 6 gives the low 4 bits and byte 7 the next 8 bits, at place
    value 2^4.  This value is the time-high of the tick count of
    [TimeInfo]. *)
Theorem timeHigh_layout (u : list byte) (le : bool) :
  length u = 16%nat ->
  exists (b6 b7 : byte) (tHigh : Z),
    u !! 6%nat = Some b6 /\ u !! 7%nat = Some b7 /\
    timeHigh le u = Ok tHigh /\
    tHigh = (if le then Z.land (byteZ b6) 0x0f + Z.shiftl (byteZ b7) 4
             else Z.shiftl (Z.land (byteZ b6) 0x0f) 8 + byteZ b7) /\
    0 <= tHigh < 2 ^ 12 /\
    forall fuel : nat, (13 <= fuel)%nat ->
      exists version tLow tMid theTime clkSeq domain localID,
        Version u = Ok version /\ timeLow le u = Ok tLow /\ timeMid le u = Ok tMid /\
        TimeInfo fuel u le = Ok (theTime, clkSeq, domain, localID) /\
        time.nanos theTime =
          time.nanos UUIDTimeBase + ticksOf version tLow tMid tHigh * 100.
Proof.
  intros H.
  destruct (TimeInfo_closed 13 u le H (le_n 13))
    as (_ & _ & _ & tHigh & _ & _ & _ & _ & _ & _ & HH & _ & _ & _ & _ & RH & _).
  pose proof H as H'. explode u H'.
  set (u := [b0; b1; b2; b3; b4; b5; b6; b7; b8; b9; b10; b11; b12; b13; b14; b15]) in *.
  exists b6, b7, tHigh.
  split; [reflexivity|]. split; [reflexivity|]. split; [exact HH|].
  pose proof (byteZ_range b7).
  rewrite (timeHigh_16 le u b6 b7 eq_refl eq_refl) in HH. injection HH as HH.
  split; [rewrite !Z.shiftl_mul_pow2 by lia; symmetry; exact HH|].
  split; [exact RH|].
  intros fuel Hfuel.
  destruct (TimeInfo_closed fuel u le H Hfuel)
    as (version & tLow & tMid & tHigh' & mv & c9 & theTime & Hver & HL & HM & HH'
        & _ & _ & _ & _ & _ & Hrun & _ & Hnanos).
  rewrite (timeHigh_16 le u b6 b7 eq_refl eq_refl) in HH'. injection HH' as HH'.
  rewrite <- HH', HH in Hnanos.
  exists version, tLow, tMid, theTime. do 3 eexists.
  split; [exact Hver|]. split; [exact HL|]. split; [exact HM|].
  split; [exact Hrun|exact Hnanos].
Qed.

Lemma timeHigh_layout_witness :
  timeHigh true sample_v1 = Ok (1 + Z.shiftl 0xd2 4).
Proof.
  destruct (timeHigh_layout sample_v1 true eq_refl)
    as (b6 & b7 & tHigh & H6 & H7 & HH & Hval & _).
  injection H6 as <-. injection H7 as <-. rewrite HH, Hval. reflexivity.
Defined.

(** C5 as stated fails in little-endian order: with byte 6 = 0x10 and byte
    7 = 0x01, the masked byte 6 is 0 and byte 7 at place value 2^8 would
    give 256; [timeHigh] gives 16, and [TimeInfo] adds 16 * 2^48 ticks. *)
Lemma timeHigh_le_byte7_counterexample :
  sample_byte7 !! 6%nat = Some x10 /\ sample_byte7 !! 7%nat = Some x01 /\
  timeHigh true sample_byte7 = Ok 16 /\
  timeHigh true sample_byte7 <> Ok (Z.land (byteZ x10) 0x0f + byteZ x01 * 2 ^ 8) /\
  exists theTime,
    TimeInfo 13 sample_byte7 true = Ok (theTime, 0, 0, 0) /\
    time.nanos theTime = time.nanos UUIDTimeBase + (16 * 2 ^ 48) * 100 /\
    time.nanos theTime <> time.nanos UUIDTimeBase + (2 ^ 8 * 2 ^ 48) * 100.
Proof.
  split; [reflexivity|]. split; [reflexivity|]. split; [reflexivity|].
  split; [vm_compute; discriminate|].
  eexists. split; [vm_compute; reflexivity|].
  split; [reflexivity|]. vm_compute. discriminate.
Qed.

(** C6. For every 16-byte buffer: when the version nibble is 2, the ticks
    are timeMid<<32 + timeHigh<<48 without time-low, the local identifier is
    the 32-bit time-low, the domain is byte 9 and the clock sequence is the
    masked byte 8 alone; when it is 1, the clock sequence is the masked byte
    8 shifted left 8 bits plus byte 9, and the domain and the local
    identifier are 0. *)
Theorem TimeInfo_fields_by_version (fuel : nat) (u : list byte) (le : bool) :
  length u = 16%nat -> (13 <= fuel)%nat ->
  exists version tLow tMid tHigh mv b9 theTime clkSeq domain localID,
    Version u = Ok version /\ timeLow le u = Ok tLow /\ timeMid le u = Ok tMid /\
    timeHigh le u = Ok tHigh /\ MaskVariant u = Ok mv /\ u !! 9%nat = Some b9 /\
    0 <= tLow < 2 ^ 32 /\
    TimeInfo fuel u le = Ok (theTime, clkSeq, domain, localID) /\
    (version = 2 ->
       time.nanos theTime =
         time.nanos UUIDTimeBase + (Z.shiftl tMid 32 + Z.shiftl tHigh 48) * 100 /\
       localID = tLow /\ domain = byteZ b9 /\ clkSeq = byteZ mv) /\
    (version = 1 ->
       clkSeq = Z.shiftl (byteZ mv) 8 + byteZ b9 /\ domain = 0 /\ localID = 0).
Proof.
  intros H Hfuel.
  destruct (TimeInfo_closed fuel u le H Hfuel)
    as (version & tLow & tMid & tHigh & mv & b9 & theTime & Hver & HL & HM & HH
        & Hmv & H9 & RL & RM & RH & Hrun & Hnorm & Hnanos).
  exists version, tLow, tMid, tHigh, mv, b9, theTime. do 3 eexists.
  repeat (split; [eassumption|]).
  rewrite !Z.shiftl_mul_pow2 by lia. split.
  - intros ->. repeat split. exact Hnanos.
  - intros ->. repeat split.
Qed.

Lemma TimeInfo_fields_by_version_witness :
  exists theTime,
    TimeInfo 13 sample_v2 false = Ok (theTime, 0x2a, 0x0d, 0x8be4df61) /\
    time.nanos theTime
    = time.nanos UUIDTimeBase + (Z.shiftl 0x93ca 32 + Z.shiftl 0x1d2 48) * 100.
Proof.
  destruct (TimeInfo_fields_by_version 13 sample_v2 false eq_refl (le_n 13))
    as (version & tL & tM & tH & mv & b9 & t & c & d & l & Hver & HL & HM & HH
        & Hmv & H9 & _ & HT & H2 & _).
  injection Hver as <-. injection HL as <-. injection HM as <-. injection HH as <-.
  injection Hmv as <-. injection H9 as <-.
  destruct (H2 eq_refl) as (Hx & -> & -> & ->).
  exists t. split; [exact HT|exact Hx].
Defined.

(** ** The heap *)

Lemma run_bind {A B : Type} (m : M A) (f : A -> M B) (h : heap) (x : A) (h' : heap) :
  m h = Ok (x, h') -> (x ← m; f x) h = f x h'.
Proof. intros H. unfold mbind, M_bind. rewrite H. reflexivity. Qed.

Lemma bytesOf_Slice (h : heap) (a : loc) (arr : list byte) :
  h !! a = Some arr -> bytesOf h (Slice a) = arr.
Proof. intros H. cbn [bytesOf]. rewrite H. reflexivity. Qed.

Section Heap.

Variables (h : heap) (a : loc) (arr : list byte).
Hypothesis Ha : h !! a = Some arr.

Lemma lookup_fresh (new : list byte) : (h ++ [new]) !! length h = Some new.
Proof. rewrite lookup_app_r by lia. rewrite Nat.sub_diag. reflexivity. Qed.

Lemma lookup_old (new : list byte) : (h ++ [new]) !! a = Some arr.
Proof. rewrite lookup_app_l; [exact Ha|]. eapply lookup_lt_Some, Ha. Qed.

Lemma fresh_ne : length h <> a.
Proof. apply lookup_lt_Some in Ha. lia. Qed.

Lemma store_ok (i : nat) (b : byte) :
  (i < length arr)%nat ->
  store (Slice a) i b h = Ok (tt, <[a := <[i := b]> arr]> h).
Proof.
  intros Hi. unfold store. rewrite Ha.
  destruct (Nat.ltb_spec i (length arr)); [reflexivity|lia].
Qed.

(** A store through another slice leaves this array as it is. *)
Lemma store_frame (i : nat) (b : byte) (h' : heap) (a' : loc) :
  a' <> a -> store (Slice a') i b h = Ok (tt, h') -> h' !! a = Some arr.
Proof.
  intros Hne. unfold store.
  destruct (h !! a') as [arr'|]; [|discriminate].
  destruct (i <? length arr')%nat; [|discriminate].
  intros [= <-]. rewrite list_lookup_insert_ne by exact Hne. exact Ha.
Qed.

End Heap.

(** ** Payload *)

(** C9. For every slice of 16 bytes, [DataInfo] returns a slice of a newly
    allocated array of 16 bytes, equal to the buffer except that byte 6 has
    its high nibble cleared and byte 8 is [MaskVariant] of the buffer.  The
    new array is not the receiver's; the receiver's bytes and every array
    allocated before the call are unchanged, and a later store through the
    returned slice leaves the receiver's bytes unchanged. *)
Theorem DataInfo_fresh_copy (h : heap) (a : loc) (B : list byte) :
  h !! a = Some B -> length B = 16%nat ->
  exists (b6 m : byte) (a' : loc) (h' : heap),
    B !! 6%nat = Some b6 /\ MaskVariant B = Ok m /\
    DataInfo (Slice a) h = Ok (Slice a', h') /\
    bytesOf h' (Slice a') =
      <[8%nat := m]> (<[6%nat := toByte (Z.land (byteZ b6) 0x0f)]> B) /\
    length (bytesOf h' (Slice a')) = 16%nat /\
    a' <> a /\ h !! a' = None /\
    bytesOf h' (Slice a) = B /\
    (forall l : loc, (l < length h)%nat -> h' !! l = h !! l) /\
    (forall (i : nat) (v : byte) (h'' : heap),
       store (Slice a') i v h' = Ok (tt, h'') -> bytesOf h'' (Slice a) = B).
Proof.
  intros Ha HB. explode B HB.
  set (B := [b0; b1; b2; b3; b4; b5; b6; b7; b8; b9; b10; b11; b12; b13; b14; b15]) in *.
  destruct (MaskVariant B) as [m| |] eqn:Hm; try discriminate Hm.
  set (P := <[8%nat := m]> (<[6%nat := toByte (Z.land (byteZ b6) 0x0f)]> B)).
  set (a' := length h).
  assert (Hne : a' <> a) by (apply (fresh_ne h a B Ha)).
  set (h1 := h ++ [replicate 16 x00]).
  set (h2 := <[a' := B]> h1).
  set (h3 := <[a' := <[6%nat := toByte (Z.land (byteZ b6) 0x0f)]> B]> h2).
  set (h4 := <[a' := P]> h3).
  assert (Hlen1 : length h1 = S (length h)) by (subst h1; rewrite length_app; cbn; lia).
  assert (H2a' : h2 !! a' = Some B).
  { subst h2. apply list_lookup_insert_eq. subst a'. lia. }
  assert (H2a : h2 !! a = Some B).
  { subst h2. rewrite list_lookup_insert_ne by exact Hne. apply lookup_old, Ha. }
  assert (H3a' : h3 !! a' = Some (<[6%nat := toByte (Z.land (byteZ b6) 0x0f)]> B)).
  { subst h3. apply list_lookup_insert_eq. subst h2. rewrite length_insert. subst a'. lia. }
  assert (H3a : h3 !! a = Some B).
  { subst h3. rewrite list_lookup_insert_ne by exact Hne. exact H2a. }
  assert (Hrun : DataInfo (Slice a) h = Ok (Slice a', h4)).
  { unfold DataInfo.
    rewrite (run_bind _ _ h B h)
      by (unfold load; rewrite (bytesOf_Slice h a B Ha); reflexivity).
    rewrite (run_bind _ _ h (Slice a') h1) by reflexivity.
    rewrite (run_bind _ _ h1 16%nat h2).
    2:{ unfold copy. rewrite (bytesOf_Slice h1 a B) by (apply lookup_old, Ha).
        rewrite (bytesOf_Slice h1 a' (replicate 16 x00)) by (apply lookup_fresh).
        reflexivity. }
    rewrite (run_bind _ _ h2 B h2)
      by (unfold load; rewrite (bytesOf_Slice h2 a' B H2a'); reflexivity).
    rewrite (run_bind _ _ h2 b6 h2) by reflexivity.
    rewrite (run_bind _ _ h2 tt h3) by (apply store_ok; [exact H2a'|cbn; lia]).
    rewrite (run_bind _ _ h3 B h3)
      by (unfold load; rewrite (bytesOf_Slice h3 a B H3a); reflexivity).
    rewrite (run_bind _ _ h3 m h3) by (rewrite Hm; reflexivity).
    rewrite (run_bind _ _ h3 tt h4) by (apply store_ok; [exact H3a'|cbn; lia]).
    reflexivity. }
  assert (H4a' : h4 !! a' = Some P).
  { subst h4. apply list_lookup_insert_eq. subst h3 h2. rewrite !length_insert.
    subst a'. lia. }
  assert (H4a : h4 !! a = Some B).
  { subst h4. rewrite list_lookup_insert_ne by exact Hne. exact H3a. }
  exists b6, m, a', h4.
  split; [reflexivity|]. split; [reflexivity|]. split; [exact Hrun|].
  split; [rewrite (bytesOf_Slice h4 a' P H4a'); reflexivity|].
  split; [rewrite (bytesOf_Slice h4 a' P H4a'); reflexivity|].
  split; [exact Hne|].
  split; [apply lookup_ge_None; subst a'; lia|].
  split; [exact (bytesOf_Slice h4 a B H4a)|].
  split.
  - intros l Hl. subst h4 h3 h2 h1.
    rewrite !list_lookup_insert_ne by (subst a'; lia).
    apply lookup_app_l. exact Hl.
  - intros i v h'' Hst. apply bytesOf_Slice.
    exact (store_frame h4 a B H4a i v h'' a' Hne Hst).
Qed.

Lemma DataInfo_fresh_copy_witness :
  exists h',
    DataInfo (Slice 0) [sample_v1] = Ok (Slice 1, h') /\
    bytesOf h' (Slice 1) =
      [x8b; xe4; xdf; x61; x93; xca; x01; xd2; x2a; x0d; x00; xe0; x98; x03; x2b; x8c] /\
    bytesOf h' (Slice 0) = sample_v1.
Proof.
  destruct (DataInfo_fresh_copy [sample_v1] 0%nat sample_v1 eq_refl eq_refl)
    as (b6 & m & a' & h' & H6 & Hm & Hrun & Hnew & _ & _ & _ & Hold & _).
  injection H6 as <-. injection Hm as <-.
  vm_compute in Hrun. injection Hrun as <- <-.
  eexists. split; [reflexivity|]. split; reflexivity.
Defined.

(** ** Strings *)

Lemma ToUpper_app (s t : string) :
  strings.ToUpper (s ++ t) = (strings.ToUpper s ++ strings.ToUpper t)%string.
Proof. induction s as [|c s IH]; cbn [strings.ToUpper append]; congruence. Qed.

Lemma append_assoc (s t r : string) : ((s ++ t) ++ r = s ++ (t ++ r))%string.
Proof. induction s as [|c s IH]; cbn [append]; congruence. Qed.

Lemma upper_idem (c : ascii) : strings.upper (strings.upper c) = strings.upper c.
Proof. destruct c as [[] [] [] [] [] [] [] []]; reflexivity. Qed.

Lemma ToUpper_idem (s : string) : strings.ToUpper (strings.ToUpper s) = strings.ToUpper s.
Proof.
  induction s as [|c s IH]; cbn [strings.ToUpper]; [reflexivity|].
  rewrite upper_idem, IH. reflexivity.
Qed.

Lemma ToUpper_inv_cons (s : string) (c : ascii) (t : string) :
  strings.ToUpper s = String c t ->
  exists p s', s = String p s' /\ strings.upper p = c /\ strings.ToUpper s' = t.
Proof.
  destruct s as [|p s']; cbn [strings.ToUpper]; intros E; [discriminate E|].
  injection E as E1 E2. exists p, s'. auto.
Qed.

Lemma ToUpper_inv_nil (s : string) : strings.ToUpper s = EmptyString -> s = EmptyString.
Proof. destruct s; cbn [strings.ToUpper]; [reflexivity|discriminate]. Qed.

Lemma length_ToUpper (s : string) : String.length (strings.ToUpper s) = String.length s.
Proof. induction s as [|c s IH]; cbn [strings.ToUpper String.length]; congruence. Qed.

Lemma Replace_app (s t : string) (c : ascii) (new : string) :
  strings.Replace (s ++ t) c new
  = (strings.Replace s c new ++ strings.Replace t c new)%string.
Proof.
  induction s as [|d s IH]; cbn [strings.Replace append]; [reflexivity|].
  rewrite IH. destruct (Ascii.eqb d c); [|reflexivity].
  rewrite append_assoc. reflexivity.
Qed.

Lemma Replace_plain (s : string) :
  all_plain s -> strings.Replace s "-"%char EmptyString = s.
Proof.
  induction s as [|c s IH]; cbn [strings.Replace all_plain]; [reflexivity|].
  intros [Hc Hs]. destruct (Ascii.eqb_spec c "-"%char) as [->|_].
  - destruct Hc as [Hc _]. congruence.
  - rewrite IH by exact Hs. reflexivity.
Qed.

Lemma substring_all (s : string) : substring 0 (String.length s) s = s.
Proof. induction s as [|c s IH]; cbn [substring String.length]; congruence. Qed.

Lemma prefix_cons (a c : ascii) (p t : string) :
  String.prefix (String a p) (String c t)
  = if ascii_dec a c then String.prefix p t else false.
Proof. reflexivity. Qed.

Lemma TrimPrefix_char (c : ascii) (t : string) :
  strings.TrimPrefix (String c t) (String c EmptyString) = t.
Proof.
  unfold strings.TrimPrefix, strings.HasPrefix.
  assert (P : String.prefix (String c EmptyString) (String c t) = true).
  { rewrite prefix_cons.
    destruct (ascii_dec c c) as [_|N]; [destruct t; reflexivity|congruence]. }
  rewrite P. cbn [String.length Nat.sub]. rewrite Nat.sub_0_r.
  cbn [substring]. apply substring_all.
Qed.

(** Only the last character matters to [TrimSuffix s "}"]. *)
Lemma TrimSuffix_plain (s : string) : all_plain s -> strings.TrimSuffix s "}" = s.
Proof.
  intros Hs. unfold strings.TrimSuffix, strings.HasSuffix.
  cbn [String.length].
  destruct (1 <=? String.length s)%nat eqn:E1; cbn [andb]; [|reflexivity].
  destruct (String.eqb_spec (substring (String.length s - 1) 1 s) "}") as [E|_];
    [|reflexivity].
  exfalso. clear E1. revert E Hs.
  induction s as [|c s IH]; cbn [String.length]; [discriminate|].
  intros E [Hc Hs]. destruct s as [|d s].
  - cbn in E. injection E as ->. destruct Hc as (_ & _ & Hc & _). congruence.
  - apply IH; [|exact Hs]. cbn [String.length Nat.sub] in *.
    rewrite Nat.sub_0_r in *. cbn [substring] in E. exact E.
Qed.

Lemma TrimSuffix_closed (s : string) : strings.TrimSuffix (s ++ "}") "}" = s.
Proof.
  unfold strings.TrimSuffix, strings.HasSuffix. cbn [String.length].
  assert (L : String.length (s ++ "}") = S (String.length s)).
  { induction s as [|c s IH]; cbn [append String.length]; congruence. }
  rewrite L. cbn [Nat.sub Nat.leb]. rewrite Nat.sub_0_r.
  assert (E1 : substring (String.length s) 1 (s ++ "}") = "}"%string).
  { clear L. induction s as [|c s IH]; cbn [append String.length substring];
      [reflexivity|exact IH]. }
  assert (E2 : substring 0 (String.length s) (s ++ "}") = s).
  { clear L E1. induction s as [|c s IH]; cbn [append String.length substring];
      [reflexivity|congruence]. }
  rewrite E1, E2. cbn. reflexivity.
Qed.

(** ** Hex digits *)

(** A character whose upper case is an upper-case hex digit is that digit,
    and plain. *)
Lemma hex_char (p : ascii) (v : Z) :
  0 <= v < 16 -> strings.upper p = strings.upper (hex.digit v) ->
  hex.fromHexChar p = Some v /\ plain p.
Proof.
  intros Hv.
  destruct (nibble_cases v Hv)
    as [->|[->|[->|[->|[->|[->|[->|[->|[->|[->|[->|[->|[->|[->|[->| ->]]]]]]]]]]]]]]].
  all: destruct p as [[] [] [] [] [] [] [] []]; cbv; intros E;
    first [discriminate E | repeat split; discriminate].
Qed.

Lemma EncodeToString_app (a b : list byte) :
  hex.EncodeToString (a ++ b)
  = (hex.EncodeToString a ++ hex.EncodeToString b)%string.
Proof. induction a as [|x a IH]; cbn [hex.EncodeToString app append]; congruence. Qed.

Lemma length_EncodeToString (bs : list byte) :
  String.length (hex.EncodeToString bs) = (2 * length bs)%nat.
Proof.
  induction bs as [|b bs IH]; cbn [hex.EncodeToString String.length length];
    [reflexivity|].
  rewrite IH. lia.
Qed.

Lemma spells_rendering (bs : list byte) :
  spells (strings.ToUpper (hex.EncodeToString bs)) bs.
Proof. apply ToUpper_idem. Qed.

Lemma spells_plain (bs : list byte) : forall s : string, spells s bs -> all_plain s.
Proof.
  unfold spells. induction bs as [|b bs IH]; intros s Hs.
  - apply ToUpper_inv_nil in Hs. subst s. exact I.
  - cbn [hex.EncodeToString strings.ToUpper] in Hs.
    apply ToUpper_inv_cons in Hs as (p & s1 & -> & Hp & Hs).
    apply ToUpper_inv_cons in Hs as (q & s2 & -> & Hq & Hs).
    cbn [all_plain]. split; [apply (hex_char p (hi b) (hi_range b) Hp)|].
    split; [apply (hex_char q (lo b) (lo_range b) Hq)|].
    apply IH, Hs.
Qed.

Lemma spells_length (s : string) (bs : list byte) :
  spells s bs -> hex.DecodedLen (String.length s) = length bs.
Proof.
  intros E. rewrite <- (length_ToUpper s), E, length_ToUpper, length_EncodeToString.
  unfold hex.DecodedLen. rewrite Nat.mul_comm. apply Nat.div_mul. discriminate.
Qed.

(** ** Decoding *)

(** Decoding a spelling of [bs] at position [length pre] writes [bs] there
    and reports no error. *)
Lemma Decode_from_spells (bs : list byte) :
  forall (s : string) (a : loc) (pre rest : list byte) (h : heap),
    spells s bs ->
    h !! a = Some (pre ++ rest) -> (length bs <= length rest)%nat ->
    hex.Decode_from (Slice a) s (length pre) h =
      Ok ((length pre + length bs)%nat, None,
          <[a := pre ++ bs ++ drop (length bs) rest]> h).
Proof.
  unfold spells.
  induction bs as [|b bs IH]; intros s a pre rest h Hs Ha Hlen.
  - apply ToUpper_inv_nil in Hs. subst s. cbn [hex.Decode_from].
    unfold mret, M_ret. cbn [length app drop]. rewrite Nat.add_0_r.
    rewrite list_insert_id by exact Ha. reflexivity.
  - cbn [hex.EncodeToString strings.ToUpper] in Hs.
    apply ToUpper_inv_cons in Hs as (p & s1 & -> & Hp & Hs).
    apply ToUpper_inv_cons in Hs as (q & s2 & -> & Hq & Hs).
    cbn [hex.Decode_from].
    rewrite (proj1 (hex_char p (hi b) (hi_range b) Hp)).
    rewrite (proj1 (hex_char q (lo b) (lo_range b) Hq)).
    destruct rest as [|r rest]; [cbn in Hlen; lia|].
    rewrite (run_bind _ _ h tt
               (<[a := <[length pre := toByte (Z.lor (Z.shiftl (hi b) 4) (lo b))]>
                         (pre ++ r :: rest)]> h)).
    2:{ apply store_ok; [exact Ha|]. rewrite length_app. cbn [length]. lia. }
    rewrite hi_lo_byte.
    replace (<[length pre := b]> (pre ++ r :: rest)) with ((pre ++ [b]) ++ rest).
    2:{ rewrite insert_app_r_alt by lia. rewrite Nat.sub_diag.
        cbn [insert list_insert]. rewrite <- app_assoc. reflexivity. }
    replace (S (length pre)) with (length (pre ++ [b]))
      by (rewrite length_app; cbn; lia).
    rewrite (IH s2 a (pre ++ [b]) rest).
    + rewrite list_insert_insert_eq. rewrite length_app. cbn [length drop].
      rewrite <- app_assoc. cbn [app].
      replace (length pre + 1 + length bs)%nat
        with (length pre + S (length bs))%nat by lia.
      reflexivity.
    + exact Hs.
    + apply list_lookup_insert_eq. eapply lookup_lt_Some, Ha.
    + cbn [length] in Hlen. lia.
Qed.

Lemma decodeInto_spells (src s : string) (bs : list byte) (h : heap) :
  spells s bs ->
  decodeInto src s h =
    Ok (Slice (length h),
        if (length bs =? uuidLength)%nat then None
        else Some (WrapTraceableErrorf None (WrongLength src (length bs) uuidLength)),
        h ++ [bs]).
Proof.
  intros E. unfold decodeInto. rewrite (spells_length s bs E).
  rewrite (run_bind _ _ h (Slice (length h)) (h ++ [replicate (length bs) x00]))
    by reflexivity.
  unfold hex.Decode.
  rewrite (run_bind _ _ _ (length bs, None) (h ++ [bs])).
  - destruct (length bs =? uuidLength)%nat; reflexivity.
  - rewrite (Decode_from_spells bs s (length h) [] (replicate (length bs) x00) _ E).
    + cbn [length app Nat.add]. rewrite drop_replicate, Nat.sub_diag.
      cbn [replicate]. rewrite app_nil_r. rewrite insert_app_r_alt by lia.
      rewrite Nat.sub_diag. reflexivity.
    + cbn [app]. rewrite lookup_app_r by lia. rewrite Nat.sub_diag. reflexivity.
    + rewrite length_replicate. lia.
Qed.

Lemma string_pair_ind (P : string -> Prop) :
  P EmptyString -> (forall c, P (String c EmptyString)) ->
  (forall c d s, P s -> P (String c (String d s))) -> forall s, P s.
Proof.
  intros H0 H1 H2. fix IH 1.
  intros [|c [|d s]]; [exact H0|apply H1|apply H2, IH].
Qed.

Lemma div2_SS (n : nat) : (S (S n) / 2 = S (n / 2))%nat.
Proof.
  replace (S (S n)) with (n + 1 * 2)%nat by lia.
  rewrite Nat.div_add by lia. lia.
Qed.

(** What [fromHexChar] accepts is a hex digit, and two digits make the byte
    they spell. *)
Lemma fromHexChar_Some (p : ascii) (x : Z) :
  hex.fromHexChar p = Some x ->
  0 <= x < 16 /\ strings.upper p = strings.upper (hex.digit x).
Proof.
  destruct p as [[] [] [] [] [] [] [] []]; intros H; vm_compute in H;
    first [discriminate H | injection H as <-; split; [lia|reflexivity]].
Qed.

Lemma nibbles_byte (x y : Z) :
  0 <= x < 16 -> 0 <= y < 16 ->
  hi (toByte (Z.lor (Z.shiftl x 4) y)) = x /\ lo (toByte (Z.lor (Z.shiftl x 4) y)) = y.
Proof.
  intros Hx Hy.
  destruct (nibble_cases x Hx)
    as [->|[->|[->|[->|[->|[->|[->|[->|[->|[->|[->|[->|[->|[->|[->| ->]]]]]]]]]]]]]]];
  destruct (nibble_cases y Hy)
    as [->|[->|[->|[->|[->|[->|[->|[->|[->|[->|[->|[->|[->|[->|[->| ->]]]]]]]]]]]]]]];
  split; reflexivity.
Qed.

(** [Decode] into a slice as long as [DecodedLen] says never leaves it, and
    without error it has written bytes that the digits spell. *)
Lemma Decode_from_total (s : string) :
  forall (a : loc) (pre rest : list byte) (h : heap),
    h !! a = Some (pre ++ rest) -> (String.length s / 2 <= length rest)%nat ->
    exists (n : nat) (e : option hex.error) (arr : list byte),
      hex.Decode_from (Slice a) s (length pre) h = Ok (n, e, <[a := arr]> h) /\
      length arr = length (pre ++ rest) /\
      (e = None ->
       exists bs : list byte,
         spells s bs /\ n = (length pre + length bs)%nat /\
         length bs = (String.length s / 2)%nat /\
         arr = pre ++ bs ++ drop (length bs) rest).
Proof.
  induction s as [|c|c d s IH] using string_pair_ind; intros a pre rest h Ha Hlen.
  - exists (length pre), None, (pre ++ rest). cbn [hex.Decode_from].
    rewrite list_insert_id by exact Ha. split; [reflexivity|].
    split; [reflexivity|]. intros _. exists [].
    split; [reflexivity|]. split; [cbn; lia|]. split; reflexivity.
  - cbn [hex.Decode_from].
    destruct (hex.fromHexChar c);
      eexists (length pre), _, (pre ++ rest);
      (rewrite list_insert_id by exact Ha; split; [reflexivity|];
       split; [reflexivity|discriminate]).
  - cbn [hex.Decode_from].
    destruct (hex.fromHexChar c) as [x|] eqn:Ec.
    2:{ eexists (length pre), _, (pre ++ rest).
        rewrite list_insert_id by exact Ha. split; [reflexivity|].
        split; [reflexivity|discriminate]. }
    destruct (hex.fromHexChar d) as [y|] eqn:Ed.
    2:{ eexists (length pre), _, (pre ++ rest).
        rewrite list_insert_id by exact Ha. split; [reflexivity|].
        split; [reflexivity|discriminate]. }
    apply fromHexChar_Some in Ec as (Hx & Hc). apply fromHexChar_Some in Ed as (Hy & Hd).
    cbn [String.length] in Hlen. rewrite div2_SS in Hlen.
    destruct rest as [|r rest]; [cbn [length] in Hlen; lia|].
    destruct (nibbles_byte x y Hx Hy) as (Hhi & Hlo).
    set (b := toByte (Z.lor (Z.shiftl x 4) y)) in *.
    rewrite (run_bind _ _ h tt (<[a := <[length pre := b]> (pre ++ r :: rest)]> h)).
    2:{ apply store_ok; [exact Ha|]. rewrite length_app. cbn [length]. lia. }
    replace (<[length pre := b]> (pre ++ r :: rest)) with ((pre ++ [b]) ++ rest).
    2:{ rewrite insert_app_r_alt by lia. rewrite Nat.sub_diag.
        cbn [insert list_insert]. rewrite <- app_assoc. reflexivity. }
    replace (S (length pre)) with (length (pre ++ [b]))
      by (rewrite length_app; cbn; lia).
    destruct (IH a (pre ++ [b]) rest (<[a := (pre ++ [b]) ++ rest]> h))
      as (n & e & arr & Hrun & Harr & Hn).
    + apply list_lookup_insert_eq. eapply lookup_lt_Some, Ha.
    + cbn [length] in Hlen. lia.
    + exists n, e, arr. rewrite Hrun, list_insert_insert_eq.
      split; [reflexivity|]. split.
      * rewrite Harr, !length_app. cbn [length]. lia.
      * intros He. destruct (Hn He) as (bs & Hsp & -> & Hl & ->).
        exists (b :: bs). split; [|split; [|split]].
        -- unfold spells in *. cbn [strings.ToUpper hex.EncodeToString].
           fold (hi b) (lo b). rewrite Hhi, Hlo, Hc, Hd, Hsp. reflexivity.
        -- rewrite length_app. cbn [length]. lia.
        -- cbn [length String.length]. rewrite div2_SS, Hl. reflexivity.
        -- cbn [length drop]. rewrite <- app_assoc. reflexivity.
Qed.

(** The outcomes of the second part of [FromString]: 16 bytes and no error,
    the length error over some other number of bytes, or the decode error. *)
Lemma decodeInto_total (src s : string) (h : heap) :
  exists (e : option error) (arr : list byte),
    decodeInto src s h = Ok (Slice (length h), e, h ++ [arr]) /\
    match e with
    | None => spells s arr /\ length arr = uuidLength
    | Some e' =>
        match cause e' with
        | Some _ => text e' = UnableToDecode src
        | None =>
            spells s arr /\ length arr <> uuidLength /\
            text e' = WrongLength src (length arr) uuidLength
        end
    end.
Proof.
  unfold decodeInto.
  set (k := hex.DecodedLen (String.length s)).
  rewrite (run_bind _ _ h (Slice (length h)) (h ++ [replicate k x00])) by reflexivity.
  destruct (Decode_from_total s (length h) [] (replicate k x00)
              (h ++ [replicate k x00]))
    as (n & e & arr & Hrun & Harr & Hn).
  { cbn [app]. rewrite lookup_app_r by lia. rewrite Nat.sub_diag. reflexivity. }
  { rewrite length_replicate. subst k. unfold hex.DecodedLen. lia. }
  unfold hex.Decode. cbn [length] in Hrun.
  rewrite (run_bind _ _ _ _ _ Hrun).
  rewrite insert_app_r_alt by lia. rewrite Nat.sub_diag. cbn [insert list_insert].
  destruct e as [e|].
  - eexists _, arr. split; reflexivity.
  - destruct (Hn eq_refl) as (bs & Hsp & -> & Hl & ->).
    cbn [length Nat.add app].
    assert (Hd : drop (length bs) (replicate k x00) = []).
    { apply drop_ge. rewrite length_replicate, Hl. subst k. unfold hex.DecodedLen. lia. }
    rewrite Hd, app_nil_r.
    destruct (Nat.eqb_spec (length bs) uuidLength) as [E|E]; cbn [negb].
    + exists None, bs. split; [reflexivity|]. split; assumption.
    + eexists _, bs. split; [reflexivity|]. cbn [cause WrapTraceableErrorf text].
      repeat split; assumption.
Qed.

(** ** Parsing *)

Lemma stripped_empty (src : string) :
  strings.Replace src "-"%char EmptyString = EmptyString -> stripped src = Panic.
Proof. intros E. unfold stripped. rewrite E. reflexivity. Qed.

Lemma stripped_brace (src t : string) :
  strings.Replace src "-"%char EmptyString = String "{"%char t ->
  stripped src = Ok (strings.TrimSuffix t "}").
Proof.
  intros E. unfold stripped. rewrite E.
  cbn [list_ascii_of_string index lookup list_lookup mbind result_bind mret result_ret].
  rewrite Ascii.eqb_refl. rewrite (TrimPrefix_char "{" t). reflexivity.
Qed.

Lemma stripped_plain (src : string) (c : ascii) (t : string) :
  strings.Replace src "-"%char EmptyString = String c t ->
  c <> "{"%char -> c <> "u"%char ->
  stripped src = Ok (String c t).
Proof.
  intros E Hb Hu. unfold stripped. rewrite E.
  cbn [list_ascii_of_string index lookup list_lookup mbind result_bind mret result_ret].
  destruct (Ascii.eqb_spec c "{"%char) as [->|_]; [congruence|].
  unfold strings.TrimPrefix, strings.HasPrefix. rewrite prefix_cons.
  destruct (ascii_dec "u" c) as [<-|_]; [congruence|reflexivity].
Qed.

(** [stripped] returns whenever a character is left after the dashes. *)
Lemma stripped_nonempty (src : string) (c : ascii) (t : string) :
  strings.Replace src "-"%char EmptyString = String c t ->
  exists s : string, stripped src = Ok s.
Proof. intros E. unfold stripped. rewrite E. eexists. reflexivity. Qed.

Lemma FromString_run (src s : string) (h : heap) :
  stripped src = Ok s -> FromString src h = decodeInto src s h.
Proof. intros E. unfold FromString, mbind, M_bind, lift. rewrite E. reflexivity. Qed.

Lemma FromString_abort (src : string) (h : heap) :
  stripped src = Panic -> FromString src h = Panic.
Proof. intros E. unfold FromString, mbind, M_bind, lift. rewrite E. reflexivity. Qed.

(** The rendering of 16 bytes, and what is left of it without the dashes. *)
Lemma String_16 (B : list byte) :
  length B = 16%nat ->
  exists s : string, UUIDByte_String B = Ok s /\
    strings.Replace s "-"%char EmptyString = strings.ToUpper (hex.EncodeToString B).
Proof.
  intros H. explode B H.
  exists (strings.ToUpper (hex.EncodeToString [b0; b1; b2; b3] ++ "-"
            ++ hex.EncodeToString [b4; b5] ++ "-"
            ++ hex.EncodeToString [b6; b7] ++ "-"
            ++ hex.EncodeToString [b8; b9] ++ "-"
            ++ hex.EncodeToString [b10; b11; b12; b13; b14; b15])%string).
  split; [reflexivity|].
  rewrite !ToUpper_app, !Replace_app.
  change (strings.Replace (strings.ToUpper "-") "-"%char EmptyString) with EmptyString.
  cbn [append].
  rewrite !Replace_plain by (eapply spells_plain, spells_rendering).
  rewrite <- !ToUpper_app, <- !EncodeToString_app. reflexivity.
Qed.

(** C2. For every buffer [B] of 16 bytes, [String] renders it, and
    [FromString] of the rendering returns without error a slice whose bytes
    are exactly [B]. *)
Theorem FromString_String_roundtrip (B : list byte) (h : heap) :
  length B = 16%nat ->
  exists s : string, UUIDByte_String B = Ok s /\
    exists (u : UUIDByte) (h' : heap),
      FromString s h = Ok (u, None, h') /\ bytesOf h' u = B.
Proof.
  intros H. destruct (String_16 B H) as (s & Hs & Hr).
  exists s. split; [exact Hs|].
  pose proof (spells_rendering B) as Hsp.
  pose proof (spells_plain B _ Hsp) as Hpl.
  destruct (strings.ToUpper (hex.EncodeToString B)) as [|c t] eqn:EX.
  { apply (f_equal String.length) in EX.
    rewrite length_ToUpper, length_EncodeToString, H in EX. discriminate EX. }
  destruct Hpl as ((_ & Hb & _ & Hu) & _).
  rewrite (FromString_run s (String c t) h (stripped_plain s c t Hr Hb Hu)).
  rewrite (decodeInto_spells s (String c t) B h Hsp). rewrite H.
  exists (Slice (length h)), (h ++ [B]). split; [reflexivity|].
  apply bytesOf_Slice, lookup_fresh.
Qed.

Lemma FromString_String_roundtrip_witness :
  UUIDByte_String sample_v1 = Ok "8BE4DF61-93CA-11D2-AA0D-00E098032B8C"%string /\
  FromString "8BE4DF61-93CA-11D2-AA0D-00E098032B8C" [] = Ok (Slice 0, None, [sample_v1]).
Proof.
  destruct (FromString_String_roundtrip sample_v1 [] eq_refl)
    as (s & Hs & u & h' & Hrun & Hb).
  vm_compute in Hs. injection Hs as <-. split; [reflexivity|].
  vm_compute in Hrun. injection Hrun as <- <-. reflexivity.
Defined.

(** C7 as the code has it.  For every input that begins with an opening
    brace once the dashes are removed, [FromString] removes that brace and
    one closing brace at the end if there is one, and decodes what is left.
    The closing brace is not required: when what follows the opening brace
    spells 16 bytes in hex, the input is accepted and yields those bytes,
    with the closing brace or without it. *)
Theorem FromString_brace_form (src t : string) (h : heap) :
  strings.Replace src "-"%char EmptyString = String "{"%char t ->
  FromString src h = decodeInto src (strings.TrimSuffix t "}") h /\
  forall (x : string) (B : list byte),
    spells x B -> length B = 16%nat -> t = x \/ t = (x ++ "}")%string ->
    FromString src h = Ok (Slice (length h), None, h ++ [B]).
Proof.
  intros E. pose proof (FromString_run src _ h (stripped_brace src t E)) as Hrun.
  split; [exact Hrun|].
  intros x B Hx HB Ht. rewrite Hrun.
  assert (Hs : strings.TrimSuffix t "}" = x).
  { destruct Ht as [-> | ->].
    - apply TrimSuffix_plain. exact (spells_plain B x Hx).
    - apply TrimSuffix_closed. }
  rewrite Hs, (decodeInto_spells src x B h Hx), HB. reflexivity.
Qed.

Lemma FromString_brace_form_witness :
  FromString "{8be4df61-93ca-11d2-aa0d-00e098032b8c}" []
  = Ok (Slice 0, None, [sample_v1]).
Proof.
  exact (proj2 (FromString_brace_form
                  "{8be4df61-93ca-11d2-aa0d-00e098032b8c}"
                  "8be4df6193ca11d2aa0d00e098032b8c}" [] eq_refl)
               "8be4df6193ca11d2aa0d00e098032b8c"%string sample_v1
               eq_refl eq_refl (or_intror eq_refl)).
Defined.

(** C7 as stated fails: this input opens with a brace and has no closing
    brace, and [FromString] accepts it. *)
Lemma FromString_open_brace_counterexample :
  strings.Replace "{8be4df61-93ca-11d2-aa0d-00e098032b8c" "-"%char EmptyString
  = "{8be4df6193ca11d2aa0d00e098032b8c"%string /\
  strings.HasSuffix "{8be4df6193ca11d2aa0d00e098032b8c" "}" = false /\
  FromString "{8be4df61-93ca-11d2-aa0d-00e098032b8c" []
  = Ok (Slice 0, None, [sample_v1]).
Proof. repeat split; reflexivity. Qed.

(** C8 fails on the code.  When nothing is left of the input after the
    dashes are removed, the index expression [s[0]] is out of range and
    [FromString] panics: it returns neither bytes nor an error. *)
Theorem FromString_empty_input_panics (h : heap) :
  FromString "" h = Panic /\ FromString "-" h = Panic /\ FromString "----" h = Panic.
Proof. repeat split; reflexivity. Qed.

(** Every other input is parsed to the end: [FromString] panics exactly
    when nothing is left after the dashes, and otherwise returns a freshly
    allocated slice, with an error or with 16 bytes. *)
Lemma FromString_panics_iff (src : string) (h : heap) :
  FromString src h = Panic <->
  strings.Replace src "-"%char EmptyString = EmptyString.
Proof.
  split.
  - intros Hp. destruct (strings.Replace src "-"%char EmptyString) as [|c t] eqn:E;
      [reflexivity|].
    destruct (stripped_nonempty src c t E) as (s & Hs).
    rewrite (FromString_run src s h Hs) in Hp.
    destruct (decodeInto_total src s h) as (e & arr & Hrun & _).
    rewrite Hrun in Hp. discriminate Hp.
  - intros E. apply FromString_abort, stripped_empty, E.
Qed.

Lemma FromString_nonempty_returns (src : string) (c : ascii) (t : string) (h : heap) :
  strings.Replace src "-"%char EmptyString = String c t ->
  exists (s : string) (e : option error) (arr : list byte),
    stripped src = Ok s /\
    FromString src h = Ok (Slice (length h), e, h ++ [arr]) /\
    match e with
    | None => spells s arr /\ length arr = uuidLength
    | Some e' =>
        match cause e' with
        | Some _ => text e' = UnableToDecode src
        | None =>
            spells s arr /\ length arr <> uuidLength /\
            text e' = WrongLength src (length arr) uuidLength
        end
    end.
Proof.
  intros E. destruct (stripped_nonempty src c t E) as (s & Hs).
  destruct (decodeInto_total src s h) as (e & arr & Hrun & Hout).
  exists s, e, arr. rewrite (FromString_run src s h Hs). auto.
Qed.

(** The length error is returned only for digits that spell a number of
    bytes other than 16. *)
Lemma FromString_length_error_inv
    (src : string) (h h' : heap) (u : UUIDByte) (e : error) :
  FromString src h = Ok (u, Some e, h') -> cause e = None ->
  exists (s : string) (bs : list byte),
    stripped src = Ok s /\ spells s bs /\ length bs <> 16%nat.
Proof.
  intros Hrun Hc.
  destruct (strings.Replace src "-"%char EmptyString) as [|c t] eqn:E.
  { rewrite (FromString_abort src h (stripped_empty src E)) in Hrun. discriminate Hrun. }
  destruct (FromString_nonempty_returns src c t h E) as (s & e' & arr & Hs & Hrun' & Hout).
  rewrite Hrun' in Hrun. injection Hrun as _ -> _.
  cbn beta iota in Hout. rewrite Hc in Hout. destruct Hout as (Hsp & Hl & _).
  exists s, arr. auto.
Qed.



(** * Further properties *)

(** ** Bounds of the field accessors *)

Lemma index_panic_iff {A : Type} (u : list A) (i : nat) :
  index u i = Panic <-> (length u <= i)%nat.
Proof.
  unfold index. destruct (u !! i) eqn:E.
  - split; [discriminate|]. intros H. apply lookup_lt_Some in E. lia.
  - split; [|reflexivity]. intros _. apply lookup_ge_None. exact E.
Qed.

Lemma Version_inv (u : list byte) (v : Z) :
  Version u = Ok v ->
  exists b : byte, u !! 6%nat = Some b /\ v = byteZ b / 16 /\ 0 <= v <= 15.
Proof.
  unfold Version, index, versionIdx. destruct (u !! 6%nat) as [b|]; [|discriminate].
  cbn [mbind result_bind]. intros [= <-].
  rewrite Z.shiftr_div_pow2 by lia. pose proof (byteZ_range b).
  exists b. split; [reflexivity|]. split; [reflexivity|].
  Z.div_mod_to_equations. lia.
Qed.

(** [Version] panics exactly on buffers of fewer than 7 bytes; otherwise it
    returns the high nibble of byte 6, a number from 0 to 15. *)
Theorem Version_nibble (u : list byte) :
  (Version u = Panic <-> (length u <= 6)%nat) /\
  forall v : Z, Version u = Ok v ->
    0 <= v <= 15 /\ exists b : byte, u !! 6%nat = Some b /\ v = byteZ b / 16.
Proof.
  unfold Version. split.
  - rewrite <- (index_panic_iff u versionIdx).
    destruct (index u versionIdx); cbn [mbind result_bind]; split;
      try discriminate; reflexivity.
  - fold (Version u). intros v Hv.
    destruct (Version_inv u v Hv) as (b & Hb & Hvb & Hr).
    split; [exact Hr|]. exists b. split; assumption.
Qed.

Lemma Variant_not_null (u : list byte) (v : UUIDVariant) :
  Variant u = Ok v -> v <> NullVariant.
Proof.
  unfold Variant. destruct (index u variantIdx) as [b| |];
    cbn [mbind result_bind]; try discriminate.
  unfold mret, result_ret. intros [= <-].
  repeat match goal with
    | |- context [if ?c then _ else _] => destruct c
    end; discriminate.
Qed.

(** [Variant] panics exactly on buffers of fewer than 9 bytes, and never
    returns [NullVariant]. *)
Theorem Variant_never_null (u : list byte) :
  (Variant u = Panic <-> (length u <= 8)%nat) /\ Variant u <> Ok NullVariant.
Proof.
  unfold Variant. split.
  - rewrite <- (index_panic_iff u variantIdx).
    destruct (index u variantIdx); cbn [mbind result_bind]; split;
      try discriminate; reflexivity.
  - fold (Variant u). intros Hv. exact (Variant_not_null u NullVariant Hv eq_refl).
Qed.

Lemma MaskVariant_inv (u : list byte) (m : byte) :
  MaskVariant u = Ok m ->
  exists b : byte, u !! 8%nat = Some b /\
    m = toByte (if Z.land (byteZ b) 0x80 =? 0 then Z.land (byteZ b) 0x7f
                else if Z.land (byteZ b) 0xc0 =? 0x80 then Z.land (byteZ b) 0x3f
                else Z.land (byteZ b) 0x1f).
Proof.
  unfold MaskVariant, index, variantIdx. destruct (u !! 8%nat) as [b|]; [|discriminate].
  cbn [mbind result_bind]. intros [= <-]. exists b. split; reflexivity.
Qed.

Lemma mask_twice (b : byte) :
  let m := toByte (if Z.land (byteZ b) 0x80 =? 0 then Z.land (byteZ b) 0x7f
                   else if Z.land (byteZ b) 0xc0 =? 0x80 then Z.land (byteZ b) 0x3f
                   else Z.land (byteZ b) 0x1f) in
  byteZ m < 128 /\
  toByte (if Z.land (byteZ m) 0x80 =? 0 then Z.land (byteZ m) 0x7f
          else if Z.land (byteZ m) 0xc0 =? 0x80 then Z.land (byteZ m) 0x3f
          else Z.land (byteZ m) 0x1f) = m.
Proof. destruct b; split; reflexivity. Qed.

(** A byte that [MaskVariant] has returned is below 0x80 and masks to
    itself. *)
Lemma masked_byte (u : list byte) (m : byte) :
  MaskVariant u = Ok m ->
  0 <= byteZ m < 0x80 /\
  toByte (if Z.land (byteZ m) 0x80 =? 0 then Z.land (byteZ m) 0x7f
          else if Z.land (byteZ m) 0xc0 =? 0x80 then Z.land (byteZ m) 0x3f
          else Z.land (byteZ m) 0x1f) = m.
Proof.
  intros H. destruct (MaskVariant_inv u m H) as (b & _ & Hm).
  destruct (mask_twice b) as (Hlt & Hid). cbv zeta in Hlt, Hid.
  rewrite <- Hm in Hlt, Hid. pose proof (byteZ_range m). split; [lia|exact Hid].
Qed.

(** Such a byte at index 8. *)
Lemma at_byte8 (w : list byte) (m : byte) :
  w !! variantIdx = Some m -> 0 <= byteZ m < 0x80 ->
  toByte (if Z.land (byteZ m) 0x80 =? 0 then Z.land (byteZ m) 0x7f
          else if Z.land (byteZ m) 0xc0 =? 0x80 then Z.land (byteZ m) 0x3f
          else Z.land (byteZ m) 0x1f) = m ->
  MaskVariant w = Ok m /\ Variant w = Ok VariantNCS.
Proof.
  intros Hi Hr Hid. split.
  - unfold MaskVariant, index. rewrite Hi. cbn [mbind result_bind].
    unfold mret, result_ret. f_equal. exact Hid.
  - rewrite (Variant_16 _ m Hi). cbv zeta. f_equal.
    destruct (Z.leb_spec (byteZ m / 16) 7); [reflexivity|].
    exfalso. Z.div_mod_to_equations. lia.
Qed.

(** What [MaskVariant] returns is below 0x80; put back as byte 8 it is of
    the NCS variant, and [MaskVariant] leaves it as it is. *)
Theorem MaskVariant_idempotent (u : list byte) (m : byte) :
  MaskVariant u = Ok m ->
  0 <= byteZ m < 0x80 /\
  MaskVariant (<[variantIdx := m]> u) = Ok m /\
  Variant (<[variantIdx := m]> u) = Ok VariantNCS.
Proof.
  intros H. destruct (masked_byte u m H) as (Hr & Hid).
  destruct (MaskVariant_inv u m H) as (b & Hb & _).
  split; [exact Hr|]. apply at_byte8; [|exact Hr|exact Hid].
  apply list_lookup_insert_eq. eapply lookup_lt_Some, Hb.
Qed.

Lemma MaskVariant_idempotent_witness :
  MaskVariant (<[variantIdx := x2a]> sample_v1) = Ok x2a.
Proof. exact (proj1 (proj2 (MaskVariant_idempotent sample_v1 x2a eq_refl))). Defined.

(** ** Payload, at any length *)

Lemma insert_fresh (h : heap) (old new : list byte) :
  <[length h := new]> (h ++ [old]) = h ++ [new].
Proof. rewrite insert_app_r_alt by lia. rewrite Nat.sub_diag. reflexivity. Qed.

Lemma nibble_twice (b : byte) :
  byteZ (toByte (Z.land (byteZ b) 0x0f)) / 16 = 0 /\
  toByte (Z.land (byteZ (toByte (Z.land (byteZ b) 0x0f))) 0x0f)
  = toByte (Z.land (byteZ b) 0x0f).
Proof. destruct b; split; reflexivity. Qed.

(** The run of [DataInfo] on an allocated slice that has bytes 6 and 8. *)
Lemma DataInfo_run (h : heap) (a : loc) (B : list byte) (b6 m : byte) :
  h !! a = Some B -> B !! 6%nat = Some b6 -> MaskVariant B = Ok m ->
  DataInfo (Slice a) h =
    Ok (Slice (length h),
        h ++ [<[8%nat := m]> (<[6%nat := toByte (Z.land (byteZ b6) 0x0f)]> B)]).
Proof.
  intros Ha H6 Hm.
  destruct (MaskVariant_inv B m Hm) as (b8 & H8 & _).
  pose proof (lookup_lt_Some _ _ _ H8) as HL.
  set (a' := length h). set (n := length B) in *.
  set (P6 := <[6%nat := toByte (Z.land (byteZ b6) 0x0f)]> B).
  set (h1 := h ++ [replicate n x00]).
  assert (Hold : forall x, (h ++ [x]) !! a = Some B) by (intros x; apply lookup_old, Ha).
  assert (Hnew : forall x, (h ++ [x]) !! a' = Some x) by (intros x; apply lookup_fresh).
  unfold DataInfo.
  rewrite (run_bind _ _ h B h)
    by (unfold load; rewrite (bytesOf_Slice h a B Ha); reflexivity).
  fold n. rewrite (run_bind _ _ h (Slice a') h1) by reflexivity.
  rewrite (run_bind _ _ h1 n (h ++ [B])).
  2:{ unfold copy. rewrite (bytesOf_Slice h1 a B (Hold _)).
      rewrite (bytesOf_Slice h1 a' _ (Hnew _)). rewrite length_replicate. fold n.
      rewrite Nat.min_id. unfold n at 2. rewrite firstn_all.
      rewrite drop_replicate, Nat.sub_diag. cbn [replicate]. rewrite app_nil_r.
      unfold h1, a'. rewrite insert_fresh. reflexivity. }
  rewrite (run_bind _ _ (h ++ [B]) B (h ++ [B]))
    by (unfold load; rewrite (bytesOf_Slice _ a' B (Hnew _)); reflexivity).
  rewrite (run_bind _ _ (h ++ [B]) b6 (h ++ [B]))
    by (unfold lift, index, versionIdx; rewrite H6; reflexivity).
  rewrite (run_bind _ _ (h ++ [B]) tt (h ++ [P6])).
  2:{ rewrite (store_ok _ a' B (Hnew _)) by (unfold versionIdx; lia).
      unfold a'. rewrite insert_fresh. reflexivity. }
  rewrite (run_bind _ _ (h ++ [P6]) B (h ++ [P6]))
    by (unfold load; rewrite (bytesOf_Slice _ a B (Hold _)); reflexivity).
  rewrite (run_bind _ _ (h ++ [P6]) m (h ++ [P6])) by (rewrite Hm; reflexivity).
  rewrite (run_bind _ _ (h ++ [P6]) tt (h ++ [<[8%nat := m]> P6])).
  2:{ rewrite (store_ok _ a' P6 (Hnew _))
        by (unfold P6, variantIdx; rewrite length_insert; lia).
      unfold a'. rewrite insert_fresh. reflexivity. }
  reflexivity.
Qed.

(** [DataInfo] panics on the nil slice and on every slice of fewer than 9
    bytes. *)
Theorem DataInfo_short_panics (h : heap) (u : UUIDByte) :
  u = nilSlice \/ (exists a B, u = Slice a /\ h !! a = Some B /\ (length B < 9)%nat) ->
  DataInfo u h = Panic.
Proof.
  intros [-> | (a & B & -> & Ha & HB)].
  - unfold DataInfo.
    rewrite (run_bind _ _ h [] h) by reflexivity.
    rewrite (run_bind _ _ h (Slice (length h)) (h ++ [[]])) by reflexivity.
    rewrite (run_bind _ _ (h ++ [[]]) 0%nat (h ++ [[]])).
    2:{ unfold copy. rewrite (bytesOf_Slice _ _ _ (lookup_fresh h [])).
        cbn [bytesOf length Nat.min take drop app]. rewrite insert_fresh. reflexivity. }
    rewrite (run_bind _ _ (h ++ [[]]) [] (h ++ [[]]))
      by (unfold load; rewrite (bytesOf_Slice _ _ _ (lookup_fresh h [])); reflexivity).
    reflexivity.
  - set (n := length B) in *. set (a' := length h).
    set (h1 := h ++ [replicate n x00]).
    assert (Hold : forall x, (h ++ [x]) !! a = Some B) by (intros x; apply lookup_old, Ha).
    assert (Hnew : forall x, (h ++ [x]) !! a' = Some x) by (intros x; apply lookup_fresh).
    unfold DataInfo.
    rewrite (run_bind _ _ h B h)
      by (unfold load; rewrite (bytesOf_Slice h a B Ha); reflexivity).
    fold n. rewrite (run_bind _ _ h (Slice a') h1) by reflexivity.
    rewrite (run_bind _ _ h1 n (h ++ [B])).
    2:{ unfold copy. rewrite (bytesOf_Slice h1 a B (Hold _)).
        rewrite (bytesOf_Slice h1 a' _ (Hnew _)). rewrite length_replicate. fold n.
        rewrite Nat.min_id. unfold n at 2. rewrite firstn_all.
        rewrite drop_replicate, Nat.sub_diag. cbn [replicate]. rewrite app_nil_r.
        unfold h1, a'. rewrite insert_fresh. reflexivity. }
    rewrite (run_bind _ _ (h ++ [B]) B (h ++ [B]))
      by (unfold load; rewrite (bytesOf_Slice _ a' B (Hnew _)); reflexivity).
    destruct (B !! 6%nat) as [b6|] eqn:H6.
    2:{ unfold mbind, M_bind, lift, index, versionIdx. rewrite H6. reflexivity. }
    rewrite (run_bind _ _ (h ++ [B]) b6 (h ++ [B]))
      by (unfold lift, index, versionIdx; rewrite H6; reflexivity).
    set (P6 := <[6%nat := toByte (Z.land (byteZ b6) 0x0f)]> B).
    rewrite (run_bind _ _ (h ++ [B]) tt (h ++ [P6])).
    2:{ rewrite (store_ok _ a' B (Hnew _))
          by (unfold versionIdx; eapply lookup_lt_Some, H6).
        unfold a'. rewrite insert_fresh. reflexivity. }
    rewrite (run_bind _ _ (h ++ [P6]) B (h ++ [P6]))
      by (unfold load; rewrite (bytesOf_Slice _ a B (Hold _)); reflexivity).
    assert (H8 : B !! 8%nat = None) by (apply lookup_ge_None; lia).
    unfold mbind, M_bind, lift, MaskVariant, index, variantIdx. rewrite H8. reflexivity.
Qed.

Lemma DataInfo_short_panics_witness :
  DataInfo (Slice 0) [take 8 sample_v1] = Panic.
Proof.
  apply DataInfo_short_panics. right. exists 0%nat, (take 8 sample_v1).
  split; [reflexivity|]. split; [reflexivity|]. cbn. lia.
Defined.

(** The payload of a slice of at least 9 bytes has version 0 and the NCS
    variant, and [DataInfo] of the payload returns the same bytes again. *)
Theorem DataInfo_payload_plain (h : heap) (a : loc) (B : list byte) :
  h !! a = Some B -> (9 <= length B)%nat ->
  exists (P : list byte),
    DataInfo (Slice a) h = Ok (Slice (length h), h ++ [P]) /\
    length P = length B /\
    Version P = Ok 0 /\ Variant P = Ok VariantNCS /\
    DataInfo (Slice (length h)) (h ++ [P])
    = Ok (Slice (S (length h)), h ++ [P] ++ [P]).
Proof.
  intros Ha HB.
  destruct (lookup_lt_is_Some_2 B 6%nat ltac:(lia)) as (b6 & H6).
  destruct (lookup_lt_is_Some_2 B 8%nat ltac:(lia)) as (b8 & H8).
  destruct (MaskVariant B) as [m| |] eqn:Hm;
    try (unfold MaskVariant, index, variantIdx in Hm; rewrite H8 in Hm; discriminate Hm).
  set (p6 := toByte (Z.land (byteZ b6) 0x0f)).
  set (P := <[8%nat := m]> (<[6%nat := p6]> B)).
  assert (HP6 : P !! 6%nat = Some p6).
  { unfold P. rewrite list_lookup_insert_ne by lia.
    apply list_lookup_insert_eq. lia. }
  assert (HP8 : P !! variantIdx = Some m).
  { unfold P. apply list_lookup_insert_eq. rewrite length_insert. lia. }
  destruct (masked_byte B m Hm) as (Hr & Hmid).
  destruct (at_byte8 P m HP8 Hr Hmid) as (HPm & HPv).
  destruct (nibble_twice b6) as (Hv & Hid). fold p6 in Hv, Hid.
  exists P. split; [exact (DataInfo_run h a B b6 m Ha H6 Hm)|].
  split; [unfold P; rewrite !length_insert; reflexivity|].
  split.
  { unfold Version, index, versionIdx. rewrite HP6. cbn [mbind result_bind].
    unfold mret, result_ret. rewrite Z.shiftr_div_pow2 by lia. f_equal. exact Hv. }
  split; [exact HPv|].
  rewrite (DataInfo_run (h ++ [P]) (length h) P p6 m (lookup_fresh h P) HP6 HPm).
  rewrite Hid, (list_insert_id P 6%nat p6 HP6), (list_insert_id P 8%nat m HP8).
  rewrite length_app. cbn [length]. rewrite Nat.add_1_r, <- app_assoc. reflexivity.
Qed.

Lemma DataInfo_payload_plain_witness :
  exists P : list byte,
    DataInfo (Slice 0) [sample_v1] = Ok (Slice 1, [sample_v1; P]) /\ Version P = Ok 0.
Proof.
  destruct (DataInfo_payload_plain [sample_v1] 0%nat sample_v1 eq_refl)
    as (P & Hrun & _ & Hv & _).
  - cbn. lia.
  - exists P. split; [exact Hrun|exact Hv].
Defined.

(** ** Rendering, at any length *)

Lemma at_least_16 {A : Type} (u : list A) : (16 <= length u)%nat ->
  exists b0 b1 b2 b3 b4 b5 b6 b7 b8 b9 b10 b11 b12 b13 b14 b15 rest,
    u = b0 :: b1 :: b2 :: b3 :: b4 :: b5 :: b6 :: b7 :: b8 :: b9 :: b10 :: b11
        :: b12 :: b13 :: b14 :: b15 :: rest.
Proof.
  intros H.
  do 16 (destruct u as [|? u]; [cbn in H; lia|]).
  repeat eexists.
Qed.

Lemma String_short (u : list byte) :
  (length u < 16)%nat -> UUIDByte_String u = Panic.
Proof.
  intros H. do 16 (destruct u as [|? u]; [reflexivity|]). cbn [length] in H. lia.
Qed.

(** [String] panics on every buffer of fewer than 16 bytes; on a longer
    buffer it returns, and renders the first 16 bytes only. *)
Theorem String_bounds (u : list byte) :
  ((length u < 16)%nat -> UUIDByte_String u = Panic) /\
  ((16 <= length u)%nat ->
     (exists s : string, UUIDByte_String u = Ok s) /\
     UUIDByte_String u = UUIDByte_String (take 16 u)).
Proof.
  split; [apply String_short|].
  intros H.
  destruct (at_least_16 u H)
    as (b0 & b1 & b2 & b3 & b4 & b5 & b6 & b7 & b8 & b9 & b10 & b11 & b12 & b13
        & b14 & b15 & rest & ->).
  split; [eexists|]; reflexivity.
Qed.

Lemma String_bounds_witness :
  UUIDByte_String (take 15 sample_v1) = Panic /\
  UUIDByte_String (sample_v1 ++ [xff]) = UUIDByte_String sample_v1.
Proof.
  split.
  - apply (proj1 (String_bounds (take 15 sample_v1))). cbn. lia.
  - apply (proj2 (String_bounds (sample_v1 ++ [xff]))). cbn. lia.
Defined.

Lemma upper_digit_upperHex (v : Z) :
  0 <= v < 16 -> upperHex (strings.upper (hex.digit v)) = true.
Proof.
  intros Hv.
  destruct (nibble_cases v Hv)
    as [->|[->|[->|[->|[->|[->|[->|[->|[->|[->|[->|[->|[->|[->|[->| ->]]]]]]]]]]]]]]];
  reflexivity.
Qed.

(** The rendering of 16 bytes has 36 characters: dashes at positions 8, 13,
    18 and 23, and upper-case hex digits everywhere else. *)
Theorem String_format (u : list byte) :
  length u = 16%nat ->
  exists s : string, UUIDByte_String u = Ok s /\ String.length s = 36%nat /\
    forall i : nat, (i < 36)%nat ->
      exists c : ascii, String.get i s = Some c /\
        if ((i =? 8) || (i =? 13) || (i =? 18) || (i =? 23))%nat
        then c = "-"%char else upperHex c = true.
Proof.
  intros H. explode u H. eexists. split; [reflexivity|]. split; [reflexivity|].
  intros i Hi.
  do 36 (destruct i as [|i];
         [eexists; split; [reflexivity|];
          first [reflexivity
                | apply upper_digit_upperHex; apply hi_range
                | apply upper_digit_upperHex; apply lo_range]|]).
  lia.
Qed.

Lemma String_format_witness :
  exists s : string, UUIDByte_String sample_v1 = Ok s /\ String.length s = 36%nat.
Proof.
  destruct (String_format sample_v1 eq_refl) as (s & Hs & Hl & _).
  exists s. split; assumption.
Defined.

Lemma spells_inj (bs : list byte) : forall (bs' : list byte) (s : string),
  spells s bs -> spells s bs' -> bs = bs'.
Proof.
  unfold spells. induction bs as [|b bs IH]; intros bs' s H H'.
  - apply ToUpper_inv_nil in H. subst s. destruct bs' as [|b' bs']; [reflexivity|].
    discriminate H'.
  - cbn [hex.EncodeToString strings.ToUpper] in H.
    apply ToUpper_inv_cons in H as (p & s1 & -> & Hp & H).
    apply ToUpper_inv_cons in H as (q & s2 & -> & Hq & H).
    destruct bs' as [|b' bs']; [discriminate H'|].
    cbn [hex.EncodeToString strings.ToUpper] in H'.
    injection H' as Hp' Hq' H'.
    pose proof (proj1 (hex_char p (hi b) (hi_range b) Hp)) as E1.
    pose proof (proj1 (hex_char p (hi b') (hi_range b') Hp')) as E1'.
    pose proof (proj1 (hex_char q (lo b) (lo_range b) Hq)) as E2.
    pose proof (proj1 (hex_char q (lo b') (lo_range b') Hq')) as E2'.
    rewrite E1 in E1'. rewrite E2 in E2'. injection E1' as E1'. injection E2' as E2'.
    f_equal.
    + rewrite <- (hi_lo_byte b), <- (hi_lo_byte b'), E1', E2'. reflexivity.
    + exact (IH bs' s2 H H').
Qed.

(** Two buffers of 16 bytes with the same rendering are the same buffer. *)
Theorem String_injective (u u' : list byte) (s : string) :
  length u = 16%nat -> length u' = 16%nat ->
  UUIDByte_String u = Ok s -> UUIDByte_String u' = Ok s -> u = u'.
Proof.
  intros H H' Hs Hs'.
  destruct (String_16 u H) as (t & Ht & Hr).
  destruct (String_16 u' H') as (t' & Ht' & Hr').
  rewrite Hs in Ht. rewrite Hs' in Ht'. injection Ht as <-. injection Ht' as <-.
  apply (spells_inj u u' (strings.ToUpper (hex.EncodeToString u))).
  - apply spells_rendering.
  - unfold spells. rewrite ToUpper_idem. rewrite <- Hr, Hr'. reflexivity.
Qed.

Lemma String_injective_witness :
  sample_v1 = [x8b; xe4; xdf; x61; x93; xca; x11; xd2; xaa; x0d; x00; xe0; x98; x03; x2b; x8c].
Proof.
  exact (String_injective sample_v1
           [x8b; xe4; xdf; x61; x93; xca; x11; xd2; xaa; x0d; x00; xe0; x98; x03; x2b; x8c]
           "8BE4DF61-93CA-11D2-AA0D-00E098032B8C"
           eq_refl eq_refl eq_refl eq_refl).
Defined.

(** ** Parsing: what is accepted *)

Lemma TrimPrefix_app (p x : string) : strings.TrimPrefix (p ++ x) p = x.
Proof.
  unfold strings.TrimPrefix, strings.HasPrefix.
  assert (P : String.prefix p (p ++ x) = true).
  { induction p as [|c p IH]; cbn [append].
    - destruct x; reflexivity.
    - rewrite prefix_cons. destruct (ascii_dec c c); [exact IH|congruence]. }
  rewrite P. clear P.
  assert (L : (String.length (p ++ x) - String.length p = String.length x)%nat).
  { induction p as [|c p IH]; cbn [append String.length]; [lia|exact IH]. }
  rewrite L. clear L.
  induction p as [|c p IH]; cbn [append String.length substring].
  - apply substring_all.
  - exact IH.
Qed.

Lemma stripped_urn (src x : string) :
  strings.Replace src "-"%char EmptyString = ("urn:uuid:" ++ x)%string ->
  stripped src = Ok x.
Proof.
  intros E. unfold stripped. rewrite E.
  change (index (list_ascii_of_string ("urn:uuid:" ++ x)) 0) with (Ok "u"%char).
  cbn [mbind result_bind mret result_ret].
  change (Ascii.eqb "u" "{") with false. cbv iota.
  rewrite TrimPrefix_app. reflexivity.
Qed.

Lemma spells_nonempty (x : string) (B : list byte) :
  spells x B -> (0 < length B)%nat ->
  exists c t, x = String c t /\ plain c.
Proof.
  intros Hx HB. pose proof (spells_plain B x Hx) as Hp.
  destruct x as [|c t].
  - apply spells_length in Hx. cbn in Hx. lia.
  - exists c, t. split; [reflexivity|]. exact (proj1 Hp).
Qed.

(** [FromString] accepts every input that, without its dashes, spells 16
    bytes in hex, in upper or lower case, bare or after the prefix
    [urn:uuid:]; the bytes are those spelled, in a newly allocated slice. *)
Theorem FromString_accepts (src x : string) (B : list byte) (h : heap) :
  spells x B -> length B = 16%nat ->
  strings.Replace src "-"%char EmptyString = x \/
  strings.Replace src "-"%char EmptyString = ("urn:uuid:" ++ x)%string ->
  FromString src h = Ok (Slice (length h), None, h ++ [B]).
Proof.
  intros Hx HB Hsrc.
  assert (Hs : stripped src = Ok x).
  { destruct Hsrc as [E|E].
    - destruct (spells_nonempty x B Hx ltac:(lia)) as (c & t & -> & (_ & Hb & _ & Hu)).
      exact (stripped_plain src c t E Hb Hu).
    - exact (stripped_urn src x E). }
  rewrite (FromString_run src x h Hs), (decodeInto_spells src x B h Hx), HB.
  reflexivity.
Qed.

Lemma FromString_accepts_witness :
  FromString "urn:uuid:8be4DF61-93ca-11d2-aa0d-00E098032b8c" []
  = Ok (Slice 0, None, [sample_v1]).
Proof.
  exact (FromString_accepts "urn:uuid:8be4DF61-93ca-11d2-aa0d-00E098032b8c"
           "8be4DF6193ca11d2aa0d00E098032b8c" sample_v1 []
           eq_refl eq_refl (or_intror eq_refl)).
Defined.

(** ** Parsing: what is returned *)

(** [FromString] returns no error only for digits that spell exactly 16
    bytes, and then its receiver holds these bytes. *)
Theorem FromString_accept_inv (src : string) (h h' : heap) (u : UUIDByte) :
  FromString src h = Ok (u, None, h') ->
  exists (s : string) (B : list byte),
    stripped src = Ok s /\ spells s B /\ length B = 16%nat /\
    u = Slice (length h) /\ h' = h ++ [B] /\ bytesOf h' u = B.
Proof.
  intros Hrun.
  destruct (strings.Replace src "-"%char EmptyString) as [|c t] eqn:E.
  { rewrite (FromString_abort src h (stripped_empty src E)) in Hrun. discriminate Hrun. }
  destruct (FromString_nonempty_returns src c t h E)
    as (s & e & arr & Hs & Hrun' & Hout).
  rewrite Hrun' in Hrun. injection Hrun as <- -> <-.
  destruct Hout as (Hsp & Hl).
  exists s, arr. repeat split; try assumption.
  apply bytesOf_Slice, lookup_fresh.
Qed.

Lemma FromString_accept_inv_witness :
  exists s : string,
    stripped "{8BE4DF61-93CA-11D2-AA0D-00E098032B8C}" = Ok s /\ spells s sample_v1.
Proof.
  destruct (FromString_accept_inv "{8BE4DF61-93CA-11D2-AA0D-00E098032B8C}" []
              [sample_v1] (Slice 0) eq_refl)
    as (s & B & Hs & Hsp & _ & _ & HB & _).
  injection HB as <-. exists s. split; assumption.
Defined.

Lemma decodeInto_allocates (src s : string) (h : heap) :
  exists (e : option error) (arr : list byte),
    decodeInto src s h = Ok (Slice (length h), e, h ++ [arr]) /\
    length arr = hex.DecodedLen (String.length s).
Proof.
  unfold decodeInto.
  set (k := hex.DecodedLen (String.length s)).
  rewrite (run_bind _ _ h (Slice (length h)) (h ++ [replicate k x00])) by reflexivity.
  destruct (Decode_from_total s (length h) [] (replicate k x00)
              (h ++ [replicate k x00]))
    as (n & e & arr & Hrun & Harr & _).
  { cbn [app]. apply lookup_fresh. }
  { rewrite length_replicate. subst k. unfold hex.DecodedLen. lia. }
  unfold hex.Decode. cbn [length] in Hrun.
  rewrite (run_bind _ _ _ _ _ Hrun). rewrite insert_fresh.
  cbn [app] in Harr. rewrite length_replicate in Harr.
  destruct e as [e|]; [|destruct (negb (n =? uuidLength)%nat)];
    eexists _, arr; (split; [reflexivity|exact Harr]).
Qed.

(** Whenever [FromString] returns, with an error or without, it has
    allocated exactly one array, of half as many bytes as there are
    characters left after stripping; the receiver is a slice of that array
    and the arrays that existed before are as they were. *)
Theorem FromString_allocates (src : string) (h h' : heap) (u : UUIDByte)
    (e : option error) :
  FromString src h = Ok (u, e, h') ->
  exists (s : string) (arr : list byte),
    stripped src = Ok s /\ u = Slice (length h) /\ h' = h ++ [arr] /\
    length arr = (String.length s / 2)%nat /\
    forall (a : loc) (old : list byte), h !! a = Some old -> h' !! a = Some old.
Proof.
  intros Hrun.
  destruct (strings.Replace src "-"%char EmptyString) as [|c t] eqn:E.
  { rewrite (FromString_abort src h (stripped_empty src E)) in Hrun. discriminate Hrun. }
  destruct (stripped_nonempty src c t E) as (s & Hs).
  rewrite (FromString_run src s h Hs) in Hrun.
  destruct (decodeInto_allocates src s h) as (e' & arr & Hrun' & Hl).
  rewrite Hrun' in Hrun. injection Hrun as <- <- <-.
  exists s, arr. repeat split; try assumption.
  intros a old Ha. exact (lookup_old h a old Ha arr).
Qed.

Lemma FromString_allocates_witness :
  exists arr : list byte,
    FromString "not-a-uuid" [sample_v1]
    = Ok (Slice 1,
          Some (WrapTraceableErrorf (Some (hex.InvalidByteError "n"))
                  (UnableToDecode "not-a-uuid")),
          [sample_v1; arr]) /\ length arr = 4%nat.
Proof.
  destruct (FromString_allocates "not-a-uuid" [sample_v1]
              [sample_v1; [x00; x00; x00; x00]] (Slice 1) _ eq_refl)
    as (s & arr & _ & _ & Hh & _).
  injection Hh as <-. eexists. split; reflexivity.
Defined.

(** Given what is left after stripping, [FromString] returns the decode
    error, the one that wraps an error of package hex, exactly when these
    characters spell no sequence of bytes. *)
Theorem FromString_decode_error_iff (src s : string) (h : heap) :
  stripped src = Ok s ->
  ((exists (u : UUIDByte) (e : error) (h' : heap),
      FromString src h = Ok (u, Some e, h') /\ cause e <> None /\
      text e = UnableToDecode src)
   <-> ~ exists bs : list byte, spells s bs).
Proof.
  intros Hs. rewrite (FromString_run src s h Hs). split.
  - intros (u & e & h' & Hrun & Hc & _) (bs & Hsp).
    rewrite (decodeInto_spells src s bs h Hsp) in Hrun.
    destruct (length bs =? uuidLength)%nat; [discriminate Hrun|].
    injection Hrun as _ <- _. apply Hc. reflexivity.
  - intros Hn. destruct (decodeInto_total src s h) as (e & arr & Hrun & Hout).
    destruct e as [e|].
    + destruct (cause e) as [c|] eqn:Hc.
      * exists (Slice (length h)), e, (h ++ [arr]).
        split; [exact Hrun|]. split; [rewrite Hc; discriminate|exact Hout].
      * exfalso. apply Hn. exists arr. exact (proj1 Hout).
    + exfalso. apply Hn. exists arr. exact (proj1 Hout).
Qed.

Lemma FromString_decode_error_iff_witness :
  ~ exists bs : list byte, spells "notauuid" bs.
Proof.
  apply (proj1 (FromString_decode_error_iff "not-a-uuid" "notauuid" [] eq_refl)).
  do 3 eexists. split; [reflexivity|]. split; [discriminate|reflexivity].
Defined.

(** An odd number of characters left after stripping is never accepted:
    [FromString] returns the decode error. *)
Theorem FromString_odd_digits_rejected (src s : string) (h : heap) :
  stripped src = Ok s -> Nat.Odd (String.length s) ->
  exists (u : UUIDByte) (e : error) (h' : heap),
    FromString src h = Ok (u, Some e, h') /\ cause e <> None.
Proof.
  intros Hs Hodd.
  assert (Hn : forall bs : list byte, ~ spells s bs).
  { intros bs Hsp. apply (f_equal String.length) in Hsp.
    rewrite !length_ToUpper, length_EncodeToString in Hsp.
    destruct Hodd as (k & Hk). lia. }
  rewrite (FromString_run src s h Hs).
  destruct (decodeInto_total src s h) as (e & arr & Hrun & Hout).
  destruct e as [e|]; [|exfalso; exact (Hn arr (proj1 Hout))].
  destruct (cause e) as [c|] eqn:Hc; [|exfalso; exact (Hn arr (proj1 Hout))].
  exists (Slice (length h)), e, (h ++ [arr]). split; [exact Hrun|].
  rewrite Hc. discriminate.
Qed.

Lemma FromString_odd_digits_rejected_witness :
  exists (u : UUIDByte) (e : error) (h' : heap),
    FromString "8be4df61-93ca-11d2-aa0d-00e098032b8" [] = Ok (u, Some e, h') /\
    cause e <> None.
Proof.
  apply (FromString_odd_digits_rejected "8be4df61-93ca-11d2-aa0d-00e098032b8"
           "8be4df6193ca11d2aa0d00e098032b8" [] eq_refl).
  exists 15%nat. reflexivity.
Defined.

Lemma TrimSuffix_head2 (a b c : ascii) (r : string) :
  exists r' : string,
    strings.TrimSuffix (String a (String b (String c r))) "}" = String a (String b r').
Proof.
  unfold strings.TrimSuffix.
  destruct (strings.HasSuffix (String a (String b (String c r))) "}").
  - cbn [String.length Nat.sub]. cbn [substring]. eexists. reflexivity.
  - eexists. reflexivity.
Qed.

Lemma decodeInto_invalid_first (src : string) (a b : ascii) (r : string) (h : heap) :
  hex.fromHexChar a = None ->
  exists arr : list byte,
    decodeInto src (String a (String b r)) h
    = Ok (Slice (length h),
          Some (WrapTraceableErrorf (Some (hex.InvalidByteError a)) (UnableToDecode src)),
          h ++ [arr]).
Proof.
  intros Ha. unfold decodeInto.
  set (k := hex.DecodedLen _).
  rewrite (run_bind _ _ h (Slice (length h)) (h ++ [replicate k x00])) by reflexivity.
  unfold hex.Decode. cbn [hex.Decode_from]. rewrite Ha.
  eexists. reflexivity.
Qed.

(** Braces and the URN prefix are alternatives: after an opening brace the
    prefix [urn:uuid:] is not removed, and its first letter fails the
    decoding. *)
Theorem FromString_brace_urn_rejected (src t : string) (h : heap) :
  strings.Replace src "-"%char EmptyString = ("{urn:uuid:" ++ t)%string ->
  exists (u : UUIDByte) (e : error) (h' : heap),
    FromString src h = Ok (u, Some e, h') /\
    cause e = Some (hex.InvalidByteError "u").
Proof.
  intros E. cbn [append] in E.
  rewrite (FromString_run src _ h (stripped_brace src _ E)).
  match goal with
  | |- context [strings.TrimSuffix (String ?a (String ?b (String ?c ?r))) _] =>
      destruct (TrimSuffix_head2 a b c r) as (r' & ->)
  end.
  destruct (decodeInto_invalid_first src "u" "r" r' h eq_refl) as (arr & ->).
  do 3 eexists. split; reflexivity.
Qed.

Lemma FromString_brace_urn_rejected_witness :
  exists (u : UUIDByte) (e : error) (h' : heap),
    FromString "{urn:uuid:8be4df61-93ca-11d2-aa0d-00e098032b8c}" [] = Ok (u, Some e, h') /\
    cause e = Some (hex.InvalidByteError "u").
Proof.
  exact (FromString_brace_urn_rejected
           "{urn:uuid:8be4df61-93ca-11d2-aa0d-00e098032b8c}"
           "8be4df6193ca11d2aa0d00e098032b8c}" [] eq_refl).
Defined.

(** ** Labels *)

(** The label of the variant of a buffer tells the variant: two buffers
    whose variants have the same label have the same variant.  Over all of
    [UUIDVariant] the labels do not: [NullVariant] and [VariantFuture] share
    one. *)
Theorem Variant_label_tells (u u' : list byte) (v v' : UUIDVariant) :
  Variant u = Ok v -> Variant u' = Ok v' ->
  UUIDVariant_String v = UUIDVariant_String v' -> v = v'.
Proof.
  intros Hv Hv' E.
  pose proof (Variant_not_null u v Hv) as N.
  pose proof (Variant_not_null u' v' Hv') as N'.
  destruct v, v'; try reflexivity; try discriminate E;
    first [exfalso; apply N; reflexivity | exfalso; apply N'; reflexivity].
Qed.

Lemma Variant_label_tells_witness :
  VariantRFC4122 = VariantRFC4122 /\
  UUIDVariant_String NullVariant = UUIDVariant_String VariantFuture.
Proof.
  split; [|reflexivity].
  exact (Variant_label_tells sample_v1 sample_v2 _ _ eq_refl eq_refl eq_refl).
Defined.

Lemma fmt_d_nibble (v : Z) : 1 <= v <= 15 ->
  fmt.d v = nth (Z.to_nat v)
              ["0"; "1"; "2"; "3"; "4"; "5"; "6"; "7"; "8"; "9"; "10"; "11"; "12";
               "13"; "14"; "15"]%string ""%string.
Proof.
  intros Hv.
  assert (v = 1 \/ v = 2 \/ v = 3 \/ v = 4 \/ v = 5 \/ v = 6 \/ v = 7 \/ v = 8 \/
          v = 9 \/ v = 10 \/ v = 11 \/ v = 12 \/ v = 13 \/ v = 14 \/ v = 15) as H by lia.
  destruct H as [->|[->|[->|[->|[->|[->|[->|[->|[->|[->|[->|[->|[->|[->| ->]]]]]]]]]]]]]];
    reflexivity.
Qed.

(** The label of the version of a buffer is [Version-Null_UUID] exactly
    when the high nibble of byte 6 is 0, and otherwise [Version-] followed by
    the number from 1 to 15 in decimal; it is never the label of an invalid
    version. *)
Theorem Version_label (u : list byte) (v : Z) :
  Version u = Ok v ->
  (v = 0 -> UUIDVersion_String v = "Version-Null_UUID"%string) /\
  (v <> 0 ->
     1 <= v <= 15 /\
     UUIDVersion_String v
     = ("Version-"
        ++ nth (Z.to_nat v)
             ["0"; "1"; "2"; "3"; "4"; "5"; "6"; "7"; "8"; "9"; "10"; "11"; "12";
              "13"; "14"; "15"] "")%string /\
     UUIDVersion_String v <> "Version-Null_UUID"%string) /\
  String.get 0 (UUIDVersion_String v) = Some "V"%char.
Proof.
  intros Hv. destruct (Version_inv u v Hv) as (b & _ & _ & Hr).
  split; [intros ->; reflexivity|]. split.
  - intros Hz. split; [lia|].
    unfold UUIDVersion_String.
    destruct (Z.ltb_spec v 0); [lia|]. destruct (Z.eqb_spec v 0); [lia|].
    rewrite fmt_d_nibble by lia. split; [reflexivity|].
    assert (v = 1 \/ v = 2 \/ v = 3 \/ v = 4 \/ v = 5 \/ v = 6 \/ v = 7 \/ v = 8 \/
            v = 9 \/ v = 10 \/ v = 11 \/ v = 12 \/ v = 13 \/ v = 14 \/ v = 15) as Hc by lia.
    destruct Hc as [->|[->|[->|[->|[->|[->|[->|[->|[->|[->|[->|[->|[->|[->| ->]]]]]]]]]]]]]];
      discriminate.
  - unfold UUIDVersion_String.
    destruct (Z.ltb_spec v 0); [lia|]. destruct (Z.eqb_spec v 0); reflexivity.
Qed.

Lemma Version_label_witness :
  UUIDVersion_String 1 = "Version-1"%string.
Proof.
  destruct (Version_label sample_v1 1 eq_refl) as (_ & H & _).
  destruct (H ltac:(discriminate)) as (_ & -> & _). reflexivity.
Defined.

(** ** The node address *)

(** The run of [MacAddr] on an allocated slice of at least 10 bytes whose
    version is at most 2. *)
Lemma MacAddr_run (h : heap) (a : loc) (B : list byte) (v : Z) :
  h !! a = Some B -> Version B = Ok v -> v <= 2 -> (10 <= length B)%nat ->
  MacAddr (Slice a) h =
    Ok (Slice (length h), h ++ [take 6 (drop 10 B ++ replicate 6 x00)]).
Proof.
  intros Ha Hv Hle HB. unfold MacAddr.
  rewrite (run_bind _ _ h B h)
    by (unfold load; rewrite (bytesOf_Slice h a B Ha); reflexivity).
  rewrite (run_bind _ _ h v h) by (rewrite Hv; reflexivity).
  destruct (Z.leb_spec v 2); [|lia].
  rewrite (run_bind _ _ h (Slice (length h)) (h ++ [replicate 6 x00])) by reflexivity.
  rewrite (run_bind _ _ _ (drop 10 B) (h ++ [replicate 6 x00])).
  2:{ unfold lift, subslice, macIdx.
      destruct (Nat.leb_spec 10 (length B)); [|lia].
      rewrite Nat.leb_refl. cbn [andb].
      rewrite <- length_drop, firstn_all. reflexivity. }
  set (n := Nat.min 6 (length (drop 10 B))).
  rewrite (run_bind _ _ _ n
             (h ++ [take n (drop 10 B) ++ drop n (replicate 6 x00)])).
  2:{ unfold copyFrom. rewrite (bytesOf_Slice _ _ _ (lookup_fresh h _)).
      rewrite length_replicate. fold n. rewrite insert_fresh. reflexivity. }
  unfold mret, M_ret. do 3 f_equal.
  assert (Hn : (n <= 6)%nat) by (unfold n; lia).
  assert (Hd : (n = 6 \/ n = length (drop 10 B) /\ n < 6)%nat) by (unfold n; lia).
  destruct Hd as [E|(E & Hlt)].
  - rewrite E. cbn [replicate drop]. rewrite app_nil_r.
    rewrite take_app_le by (unfold n in E; lia). reflexivity.
  - rewrite take_app_ge by lia. rewrite E at 1. rewrite firstn_all. f_equal.
    rewrite <- E. rewrite drop_replicate, take_replicate.
    replace ((6 - n) `min` 6)%nat with (6 - n)%nat by lia. reflexivity.
Qed.

(** For a slice of 16 bytes, [MacAddr] returns bytes 10 to 15 in a newly
    allocated array when the version is 0, 1 or 2, and [nil] without
    allocating when it is greater; the receiver's bytes are unchanged. *)
Theorem MacAddr_node (h : heap) (a : loc) (B : list byte) (v : Z) :
  h !! a = Some B -> length B = 16%nat -> Version B = Ok v ->
  (v <= 2 ->
     MacAddr (Slice a) h = Ok (Slice (length h), h ++ [drop 10 B]) /\
     length (drop 10 B) = 6%nat /\ length h <> a /\
     bytesOf (h ++ [drop 10 B]) (Slice a) = B) /\
  (2 < v -> MacAddr (Slice a) h = Ok (nilSlice, h)).
Proof.
  intros Ha HB Hv. split.
  - intros Hle. rewrite (MacAddr_run h a B v Ha Hv Hle) by lia.
    pose proof HB as HB'. explode B HB'.
    split; [reflexivity|]. split; [reflexivity|].
    split; [exact (fresh_ne h a _ Ha)|].
    apply bytesOf_Slice. exact (lookup_old h a _ Ha _).
  - intros Hgt. unfold MacAddr.
    rewrite (run_bind _ _ h B h)
      by (unfold load; rewrite (bytesOf_Slice h a B Ha); reflexivity).
    rewrite (run_bind _ _ h v h) by (rewrite Hv; reflexivity).
    destruct (Z.leb_spec v 2); [lia|reflexivity].
Qed.

Lemma MacAddr_node_witness :
  MacAddr (Slice 0) [sample_v1] = Ok (Slice 1, [sample_v1; [x00; xe0; x98; x03; x2b; x8c]]).
Proof.
  exact (proj1 (proj1 (MacAddr_node [sample_v1] 0%nat sample_v1 1 eq_refl eq_refl eq_refl)
                  ltac:(discriminate))).
Defined.

(** On a slice of fewer than 10 bytes [MacAddr] panics, unless the buffer
    has its byte 6 and a version above 2; from 10 to 15 bytes and a version
    of at most 2, the missing bytes of the node are zero. *)
Theorem MacAddr_short (h : heap) (a : loc) (B : list byte) :
  h !! a = Some B ->
  ((length B < 10)%nat -> (forall v, Version B = Ok v -> v <= 2) ->
     MacAddr (Slice a) h = Panic) /\
  (forall v, (10 <= length B <= 16)%nat -> Version B = Ok v -> v <= 2 ->
     MacAddr (Slice a) h
     = Ok (Slice (length h), h ++ [drop 10 B ++ replicate (16 - length B) x00]) /\
     length (drop 10 B ++ replicate (16 - length B) x00) = 6%nat).
Proof.
  intros Ha. split.
  - intros HB Hv. unfold MacAddr.
    rewrite (run_bind _ _ h B h)
      by (unfold load; rewrite (bytesOf_Slice h a B Ha); reflexivity).
    destruct (Version B) as [v| |] eqn:E.
    + specialize (Hv v eq_refl).
      rewrite (run_bind _ _ h v h) by reflexivity.
      destruct (Z.leb_spec v 2); [|lia].
      rewrite (run_bind _ _ h (Slice (length h)) (h ++ [replicate 6 x00])) by reflexivity.
      unfold mbind, M_bind, lift, subslice, macIdx.
      destruct (Nat.leb_spec 10 (length B)); [lia|]. reflexivity.
    + reflexivity.
    + unfold Version, index in E. destruct (B !! versionIdx); discriminate E.
  - intros v HB Hv Hle. rewrite (MacAddr_run h a B v Ha Hv Hle) by lia.
    assert (Hd : length (drop 10 B) = (length B - 10)%nat) by apply length_drop.
    assert (E : take 6 (drop 10 B ++ replicate 6 x00)
                = drop 10 B ++ replicate (16 - length B) x00).
    { rewrite take_app_ge by lia. f_equal. rewrite take_replicate, Hd.
      replace ((6 - (length B - 10)) `min` 6)%nat with (16 - length B)%nat by lia.
      reflexivity. }
    rewrite E. split; [reflexivity|].
    rewrite length_app, length_replicate. lia.
Qed.

Lemma MacAddr_short_witness :
  MacAddr (Slice 0) [take 9 sample_v1] = Panic.
Proof.
  apply (proj1 (MacAddr_short [take 9 sample_v1] 0%nat (take 9 sample_v1) eq_refl)).
  - cbn. lia.
  - intros v [= <-]. discriminate.
Defined.

(** ** Rendering of hardware addresses *)

Lemma net_digit_not_colon (b : byte) :
  Ascii.eqb (net.digit (Z.shiftr (byteZ b) 4)) ":" = false /\
  Ascii.eqb (net.digit (Z.land (byteZ b) 0xF)) ":" = false /\
  Ascii.eqb (strings.upper (net.digit (Z.shiftr (byteZ b) 4))) ":" = false /\
  Ascii.eqb (strings.upper (net.digit (Z.land (byteZ b) 0xF))) ":" = false.
Proof. destruct b; repeat split; reflexivity. Qed.

Lemma String_loop_plain (a : list byte) : forall i : nat,
  strings.Replace (net.String_loop i a) ":"%char EmptyString = hex.EncodeToString a /\
  strings.Replace (strings.ToUpper (net.String_loop i a)) ":"%char EmptyString
  = strings.ToUpper (hex.EncodeToString a).
Proof.
  induction a as [|b a IH]; intros i; [split; reflexivity|].
  destruct (net_digit_not_colon b) as (H1 & H2 & H3 & H4).
  destruct (IH (S i)) as (IH1 & IH2).
  cbn [net.String_loop hex.EncodeToString].
  destruct (0 <? i)%nat; cbn [strings.ToUpper strings.Replace];
    change (Ascii.eqb ":" ":") with true;
    change (Ascii.eqb (strings.upper ":") ":") with true; cbv iota; cbn [append];
    rewrite ?H1, ?H2, ?H3, ?H4, IH1, IH2; split; reflexivity.
Qed.

Lemma length_String_loop (a : list byte) : forall i : nat,
  String.length (net.String_loop i a)
  = (3 * length a - (if (0 <? i)%nat then 0 else if (length a =? 0)%nat then 0 else 1))%nat.
Proof.
  induction a as [|b a IH]; intros i.
  - cbn. destruct (0 <? i)%nat; reflexivity.
  - cbn [net.String_loop length]. specialize (IH (S i)). cbn [Nat.ltb Nat.leb] in IH.
    destruct (0 <? i)%nat; cbn [String.length Nat.eqb]; rewrite IH; lia.
Qed.

Lemma ToString_plain (a : list byte) :
  MACAddrBytes_ToString (Some a) "" false = hex.EncodeToString a /\
  MACAddrBytes_ToString (Some a) "" true = strings.ToUpper (hex.EncodeToString a).
Proof.
  unfold MACAddrBytes_ToString, net.HardwareAddr_String. cbn [String.eqb negb].
  destruct a as [|b a]; [split; reflexivity|]. cbn [length Nat.eqb].
  apply String_loop_plain.
Qed.

(** [ToString]: the nil address is rendered as a marker, the empty one as
    the empty string; [n] bytes take [3n - 1] characters with the colon, and
    with the empty delimiter the rendering is the plain hex of the bytes, in
    upper case when asked. *)
Theorem MACAddrBytes_ToString_shape (a : list byte) :
  MACAddrBytes_String None = "<Null_MAC_Address>"%string /\
  MACAddrBytes_String (Some []) = EmptyString /\
  ((0 < length a)%nat ->
     String.length (MACAddrBytes_String (Some a)) = (3 * length a - 1)%nat) /\
  MACAddrBytes_ToString (Some a) "" false = hex.EncodeToString a /\
  MACAddrBytes_ToString (Some a) "" true = strings.ToUpper (hex.EncodeToString a).
Proof.
  split; [reflexivity|]. split; [reflexivity|]. split; [|apply ToString_plain].
  intros Ha. unfold MACAddrBytes_String, MACAddrBytes_ToString, net.HardwareAddr_String.
  cbn [String.eqb Ascii.eqb Bool.eqb negb].
  destruct (Nat.eqb_spec (length a) 0); [lia|].
  rewrite length_String_loop. cbn [Nat.ltb Nat.leb].
  destruct (Nat.eqb_spec (length a) 0); [lia|]. reflexivity.
Qed.

Lemma MACAddrBytes_ToString_shape_witness :
  String.length (MACAddrBytes_String (Some (drop 10 sample_v1))) = 17%nat.
Proof.
  apply (proj1 (proj2 (proj2 (MACAddrBytes_ToString_shape (drop 10 sample_v1))))).
  cbn. lia.
Defined.

(** The last field of the rendering of a buffer of 16 bytes is its node
    address, bytes 10 to 15, in upper case and without delimiter. *)
Theorem String_last_field_is_node (u : list byte) (s : string) :
  length u = 16%nat -> UUIDByte_String u = Ok s ->
  substring 24 12 s = MACAddrBytes_ToString (Some (drop 10 u)) "" true.
Proof.
  intros H Hs.
  rewrite (proj2 (ToString_plain (drop 10 u))).
  explode u H. injection Hs as <-. reflexivity.
Qed.

Lemma String_last_field_is_node_witness :
  MACAddrBytes_ToString (Some (drop 10 sample_v1)) "" true = "00E098032B8C"%string.
Proof.
  rewrite <- (String_last_field_is_node sample_v1
                "8BE4DF61-93CA-11D2-AA0D-00E098032B8C" eq_refl eq_refl).
  reflexivity.
Defined.

(** ** Time information: other versions, bounds, order *)

Lemma addUnits_zero (fuel : nat) (t : time.Time) : addUnits fuel t 0 = Ok t.
Proof. destruct fuel; reflexivity. Qed.

(** For a buffer of 16 bytes whose version is neither 1 nor 2, [TimeInfo]
    returns the time base itself, the masked byte 8 as clock sequence, and 0
    as domain and local identifier, whatever the bound on the loop. *)
Theorem TimeInfo_other_versions (fuel : nat) (u : list byte) (le : bool) (v : Z) :
  length u = 16%nat -> Version u = Ok v -> v <> 1 -> v <> 2 ->
  exists mv : byte,
    MaskVariant u = Ok mv /\
    TimeInfo fuel u le = Ok (UUIDTimeBase, byteZ mv, 0, 0).
Proof.
  intros H Hv H1 H2.
  destruct (TimeInfo_closed 13 u le H (le_n 13))
    as (v' & tLow & tMid & tHigh & mv & b9 & _ & Hver & HL & HM & HH & Hmv & _).
  rewrite Hv in Hver. injection Hver as <-.
  exists mv. split; [exact Hmv|].
  unfold TimeInfo. rewrite Hv, HL, HM, HH. cbn [mbind result_bind].
  unfold timeUnits, localIDOf.
  destruct (Z.eqb_spec v 1); [contradiction|]. destruct (Z.eqb_spec v 2); [contradiction|].
  rewrite addUnits_zero, Hmv. reflexivity.
Qed.

Lemma TimeInfo_other_versions_witness :
  TimeInfo 0 sample_v4 false = Ok (UUIDTimeBase, 0x2a, 0, 0).
Proof.
  destruct (TimeInfo_other_versions 0 sample_v4 false 4
              eq_refl eq_refl ltac:(discriminate) ltac:(discriminate))
    as (mv & Hmv & Hrun).
  injection Hmv as <-. exact Hrun.
Defined.

Lemma mask_rfc (b : byte) :
  (let v := byteZ b / 16 in
   if v <=? 7 then VariantNCS
   else if (8 <=? v) && (v <=? 11) then VariantRFC4122
   else if (12 <=? v) && (v <=? 13) then VariantMicrosoft
   else VariantFuture) = VariantRFC4122 ->
  byteZ (toByte (if Z.land (byteZ b) 0x80 =? 0 then Z.land (byteZ b) 0x7f
                 else if Z.land (byteZ b) 0xc0 =? 0x80 then Z.land (byteZ b) 0x3f
                 else Z.land (byteZ b) 0x1f)) < 64.
Proof. destruct b; intros E; first [discriminate E | reflexivity]. Qed.

(** The clock sequence of a buffer of 16 bytes is below 2^15 for version 1
    and below 2^7 otherwise; when the variant is RFC4122 it has 14 bits for
    version 1 and 6 bits otherwise.  The domain is a byte and the local
    identifier is below 2^32. *)
Theorem TimeInfo_clock_sequence_bound (fuel : nat) (u : list byte) (le : bool) :
  length u = 16%nat -> (13 <= fuel)%nat ->
  exists v theTime clkSeq domain localID,
    Version u = Ok v /\
    TimeInfo fuel u le = Ok (theTime, clkSeq, domain, localID) /\
    (v = 1 -> 0 <= clkSeq < 2 ^ 15 /\
              (Variant u = Ok VariantRFC4122 -> clkSeq < 2 ^ 14)) /\
    (v <> 1 -> 0 <= clkSeq < 2 ^ 7 /\
               (Variant u = Ok VariantRFC4122 -> clkSeq < 2 ^ 6)) /\
    0 <= domain < 2 ^ 8 /\ 0 <= localID < 2 ^ 32.
Proof.
  intros H Hfuel.
  destruct (TimeInfo_closed fuel u le H Hfuel)
    as (v & tLow & tMid & tHigh & mv & b9 & theTime & Hver & HL & HM & HH
        & Hmv & H9 & RL & RM & RH & Hrun & _).
  destruct (masked_byte u mv Hmv) as (Rmv & _).
  pose proof (byteZ_range b9) as R9.
  assert (Hrfc : Variant u = Ok VariantRFC4122 -> byteZ mv < 64).
  { intros Hvar. destruct (MaskVariant_inv u mv Hmv) as (b8 & H8 & ->).
    rewrite (Variant_16 u b8 H8) in Hvar. injection Hvar as Hvar.
    exact (mask_rfc b8 Hvar). }
  exists v, theTime. do 3 eexists.
  split; [exact Hver|]. split; [exact Hrun|].
  split; [|split; [|split]].
  - intros ->. cbn [Z.eqb Pos.eqb]. split; [lia|]. intros Hvar. specialize (Hrfc Hvar). lia.
  - intros Hn. destruct (Z.eqb_spec v 1); [contradiction|].
    split; [lia|]. intros Hvar. specialize (Hrfc Hvar). lia.
  - destruct (v =? 2); lia.
  - destruct (v =? 2); lia.
Qed.

Lemma TimeInfo_clock_sequence_bound_witness :
  exists theTime clkSeq domain localID,
    TimeInfo 13 sample_v1 false = Ok (theTime, clkSeq, domain, localID) /\
    clkSeq < 2 ^ 14.
Proof.
  destruct (TimeInfo_clock_sequence_bound 13 sample_v1 false eq_refl (le_n 13))
    as (v & t & c & d & l & Hv & Hrun & H1 & _).
  injection Hv as <-. destruct (H1 eq_refl) as (_ & Hc).
  exists t, c, d, l. split; [exact Hrun|]. apply Hc. reflexivity.
Defined.

(** The times of version-1 buffers are ordered as their tick counts are, and
    equal exactly when the tick counts are. *)
Theorem TimeInfo_v1_order (fuel : nat) (u u' : list byte) (le le' : bool)
    (tL tM tH tL' tM' tH' : Z) (t t' : time.Time) (c d l c' d' l' : Z) :
  length u = 16%nat -> length u' = 16%nat ->
  Version u = Ok 1 -> Version u' = Ok 1 -> (13 <= fuel)%nat ->
  timeLow le u = Ok tL -> timeMid le u = Ok tM -> timeHigh le u = Ok tH ->
  timeLow le' u' = Ok tL' -> timeMid le' u' = Ok tM' -> timeHigh le' u' = Ok tH' ->
  TimeInfo fuel u le = Ok (t, c, d, l) -> TimeInfo fuel u' le' = Ok (t', c', d', l') ->
  let ticks := tL + Z.shiftl tM 32 + Z.shiftl tH 48 in
  let ticks' := tL' + Z.shiftl tM' 32 + Z.shiftl tH' 48 in
  (ticks < ticks' <-> time.nanos t < time.nanos t') /\
  (ticks = ticks' <-> t = t').
Proof.
  intros H H' Hv Hv' Hfuel HL HM HH HL' HM' HH' Hrun Hrun'.
  destruct (TimeInfo_closed fuel u le H Hfuel)
    as (v & xL & xM & xH & mv & b9 & x & Hver & EL & EM & EH
        & _ & _ & _ & _ & _ & Erun & Hnorm & Hnanos).
  destruct (TimeInfo_closed fuel u' le' H' Hfuel)
    as (v' & yL & yM & yH & mv' & b9' & y & Hver' & EL' & EM' & EH'
        & _ & _ & _ & _ & _ & Erun' & Hnorm' & Hnanos').
  rewrite Hv in Hver. rewrite Hv' in Hver'. injection Hver as <-. injection Hver' as <-.
  rewrite HL in EL. rewrite HM in EM. rewrite HH in EH.
  rewrite HL' in EL'. rewrite HM' in EM'. rewrite HH' in EH'.
  injection EL as <-. injection EM as <-. injection EH as <-.
  injection EL' as <-. injection EM' as <-. injection EH' as <-.
  rewrite Hrun in Erun. rewrite Hrun' in Erun'.
  assert (Et : x = t) by congruence. assert (Et' : y = t') by congruence.
  subst x y. clear Erun Erun'.
  change (ticksOf 1 tL tM tH) with (tL + tM * 2 ^ 32 + tH * 2 ^ 48) in Hnanos.
  change (ticksOf 1 tL' tM' tH') with (tL' + tM' * 2 ^ 32 + tH' * 2 ^ 48) in Hnanos'.
  cbv zeta. rewrite !Z.shiftl_mul_pow2 by lia.
  split; [lia|]. split.
  - intros E. apply normal_unique; [assumption|assumption|lia].
  - intros ->. lia.
Qed.

Lemma TimeInfo_v1_order_witness :
  exists t t' : time.Time,
    TimeInfo 13 sample_byte7 false = Ok (t, 0, 0, 0) /\
    TimeInfo 13 sample_v1 false = Ok (t', 10765, 0, 0) /\
    time.nanos t < time.nanos t'.
Proof.
  do 2 eexists. split; [reflexivity|]. split; [reflexivity|].
  refine (proj1 (proj1 (TimeInfo_v1_order 13 sample_byte7 sample_v1 false false
                   _ _ _ _ _ _ _ _ _ _ _ _ _ _
                   eq_refl eq_refl eq_refl eq_refl (le_n 13)
                   eq_refl eq_refl eq_refl eq_refl eq_refl eq_refl eq_refl eq_refl))
                _).
  reflexivity.
Defined.

(** ** Time information on short buffers *)

(** With 8 bytes or more the time fields are read and the loop ends; what
    is left of [TimeInfo] reads bytes 8 and 9. *)
Lemma TimeInfo_front (fuel : nat) (u : list byte) (le : bool) :
  (8 <= length u)%nat -> (13 <= fuel)%nat ->
  exists (version tLow : Z) (theTime : time.Time),
    Version u = Ok version /\
    TimeInfo fuel u le =
      (mv ← MaskVariant u;
       let clkSeq := byteZ mv in
       if version =? 1
       then b9 ← index u (variantIdx + 1)%nat;
            mret (theTime, int64 (int64 (Z.shiftl clkSeq 8) + byteZ b9), 0,
                  localIDOf version tLow)
       else if version =? 2
       then b9 ← index u (variantIdx + 1)%nat;
            mret (theTime, clkSeq, byteZ b9, localIDOf version tLow)
       else mret (theTime, clkSeq, 0, localIDOf version tLow)).
Proof.
  intros H Hfuel.
  do 8 (destruct u as [|? u]; [cbn in H; lia|]).
  match goal with |- context [Version ?l] => set (w := l) end.
  pose proof (timeLow_16 le w b b0 b1 b2 eq_refl eq_refl eq_refl eq_refl) as HL.
  pose proof (timeMid_16 le w b3 b4 eq_refl eq_refl) as HMd.
  pose proof (timeHigh_16 le w b5 b6 eq_refl eq_refl) as HH.
  pose proof (byteZ_range b). pose proof (byteZ_range b0).
  pose proof (byteZ_range b1). pose proof (byteZ_range b2).
  pose proof (byteZ_range b3). pose proof (byteZ_range b4).
  pose proof (byteZ_range b5). pose proof (byteZ_range b6).
  pose proof (land15_range (byteZ b5) ltac:(lia)).
  match type of HL with _ = Ok ?x => set (tLow := x) in * end.
  match type of HMd with _ = Ok ?x => set (tMid := x) in * end.
  match type of HH with _ = Ok ?x => set (tHigh := x) in * end.
  assert (0 <= tLow < 2 ^ 32) by (subst tLow; destruct le; lia).
  assert (0 <= tMid < 2 ^ 16) by (subst tMid; destruct le; lia).
  assert (0 <= tHigh < 2 ^ 12) by (subst tHigh; destruct le; lia).
  set (version := Z.shiftr (byteZ b5) 4).
  assert (Hticks : 0 <= ticksOf version tLow tMid tHigh < 2 ^ 60).
  { unfold ticksOf. destruct (version =? 1); [|destruct (version =? 2)]; lia. }
  destruct (addUnits_exact fuel UUIDTimeBase (ticksOf version tLow tMid tHigh))
    as (theTime & Hloop & _).
  { unfold time.normal. change (time.nsec UUIDTimeBase) with 0. lia. }
  { change (time.ext UUIDTimeBase) with 49916304000. lia. }
  { change MaxDurationUnit with 92233720368547758. lia. }
  { lia. }
  { change (time.nanos UUIDTimeBase) with 49916304000000000000. lia. }
  exists version, tLow, theTime. split; [reflexivity|].
  unfold TimeInfo. change (Version w) with (Ok version).
  rewrite HL, HMd, HH. cbn [mbind result_bind].
  rewrite timeUnits_exact by assumption. fold (ticksOf version tLow tMid tHigh).
  rewrite Hloop. reflexivity.
Qed.

(** [TimeInfo] panics on every buffer of fewer than 9 bytes, and on a
    buffer of 9 bytes when its version is 1 or 2: these read byte 9. *)
Theorem TimeInfo_short_panics (fuel : nat) (u : list byte) (le : bool) :
  (13 <= fuel)%nat -> (length u < 10)%nat ->
  (length u < 9)%nat \/ Version u = Ok 1 \/ Version u = Ok 2 ->
  TimeInfo fuel u le = Panic.
Proof.
  intros Hfuel Hlen Hcase.
  destruct (Nat.le_gt_cases 8 (length u)) as [H8|H8].
  - destruct (TimeInfo_front fuel u le H8 Hfuel) as (v & tLow & t & Hv & ->).
    unfold MaskVariant, index, variantIdx.
    destruct (u !! 8%nat) as [b8|] eqn:E8; [|reflexivity].
    cbn [mbind result_bind].
    assert (H9 : u !! (8 + 1)%nat = None) by (apply lookup_ge_None; lia).
    rewrite H9.
    destruct Hcase as [Hc|[Hc|Hc]].
    + apply lookup_lt_Some in E8. lia.
    + rewrite Hv in Hc. injection Hc as ->. reflexivity.
    + rewrite Hv in Hc. injection Hc as ->. reflexivity.
  - clear Hcase Hlen Hfuel.
    do 8 (destruct u as [|? u]; [destruct le; reflexivity|]).
    cbn [length] in H8. lia.
Qed.

Lemma TimeInfo_short_panics_witness :
  TimeInfo 13 (take 9 sample_v1) false = Panic.
Proof.
  apply TimeInfo_short_panics; [apply le_n|cbn; lia|].
  right. left. reflexivity.
Defined.

(** ** The report *)

Lemma run_lift {A B : Type} (r : result A) (f : A -> M B) (h : heap) (x : A) :
  r = Ok x -> (y ← lift r; f y) h = f x h.
Proof. intros ->. reflexivity. Qed.

Lemma run_load {B : Type} (u : UUIDByte) (f : list byte -> M B) (h : heap) :
  (cu ← load u; f cu) h = f (bytesOf h u) h.
Proof. reflexivity. Qed.

(** [Info] returns for every slice of 16 bytes.  The report starts with
    the rendering, the variant and the version; for versions other than 1
    to 5 that is all of it and nothing is allocated; for versions 1 to 5
    one array is allocated.  The receiver's bytes are unchanged. *)
Theorem Info_returns (timeString : time.Time -> string) (fuel : nat)
    (h : heap) (a : loc) (B : list byte) :
  h !! a = Some B -> length B = 16%nat -> (13 <= fuel)%nat ->
  exists (s : string) (variant : UUIDVariant) (version : Z) (rest : string)
         (h' : heap),
    UUIDByte_String B = Ok s /\ Variant B = Ok variant /\ Version B = Ok version /\
    Info timeString fuel (Slice a) h
    = Ok ((header s variant version ++ rest)%string, h') /\
    (version < 1 \/ 5 < version -> rest = EmptyString /\ h' = h) /\
    (1 <= version <= 5 -> exists arr : list byte, h' = h ++ [arr]) /\
    bytesOf h' (Slice a) = B.
Proof.
  intros Ha HB Hfuel.
  destruct (String_16 B HB) as (s & Hs & _).
  destruct (TimeInfo_closed fuel B false HB Hfuel)
    as (version & tLow & tMid & tHigh & mv & b9 & theTime & Hver & _ & _ & _
        & Hmv & _ & _ & _ & _ & Hrun & _).
  destruct (Variant B) as [variant| |] eqn:Hvar;
    try (exfalso; destruct (MaskVariant_inv B mv Hmv) as (b8 & H8 & _);
         rewrite (Variant_16 B b8 H8) in Hvar; discriminate Hvar).
  destruct (lookup_lt_is_Some_2 B 6%nat ltac:(lia)) as (b6 & H6).
  exists s, variant, version.
  unfold Info. rewrite run_load, (bytesOf_Slice h a B Ha).
  rewrite (run_lift _ _ h s Hs), (run_lift _ _ h variant Hvar),
          (run_lift _ _ h version Hver).
  fold (header s variant version).
  destruct ((version =? 1) || (version =? 2)) eqn:E12.
  - assert (Hv : version = 1 \/ version = 2).
    { apply orb_true_iff in E12 as [E|E]; apply Z.eqb_eq in E; auto. }
    rewrite (run_bind _ _ h (Slice (length h))
               (h ++ [take 6 (drop 10 B ++ replicate 6 x00)]))
      by (apply (MacAddr_run h a B version Ha Hver); lia).
    set (h' := h ++ _).
    assert (Ha' : h' !! a = Some B) by (apply lookup_old, Ha).
    rewrite (run_bind _ _ h' (macOf h' (Slice (length h))) h') by reflexivity.
    rewrite run_load, (bytesOf_Slice h' a B Ha'), (run_lift _ _ h' _ Hrun).
    destruct (version =? 1); eexists _, h';
      (do 3 (split; [first [reflexivity | eassumption]|]));
      (split; [unfold mret, M_ret; rewrite !append_assoc; reflexivity|]);
      (split; [lia|]); (split; [intros _; eexists; reflexivity|]);
      exact (bytesOf_Slice h' a B Ha').
  - apply orb_false_iff in E12 as (E1 & E2).
    apply Z.eqb_neq in E1. apply Z.eqb_neq in E2.
    destruct ((version =? 3) || (version =? 4) || (version =? 5)) eqn:E345.
    + assert (Hv : version = 3 \/ version = 4 \/ version = 5).
      { apply orb_true_iff in E345 as [E|E];
          [apply orb_true_iff in E as [E|E]|]; apply Z.eqb_eq in E; auto. }
      rewrite (run_bind _ _ h _ _ (DataInfo_run h a B b6 mv Ha H6 Hmv)).
      set (h' := h ++ _).
      assert (Ha' : h' !! a = Some B) by (apply lookup_old, Ha).
      rewrite run_load.
      eexists _, h'.
      do 3 (split; [first [reflexivity | eassumption]|]).
      split; [reflexivity|].
      split; [lia|]. split; [intros _; eexists; reflexivity|].
      exact (bytesOf_Slice h' a B Ha').
    + apply orb_false_iff in E345 as (E34 & E5).
      apply orb_false_iff in E34 as (E3 & E4).
      apply Z.eqb_neq in E3. apply Z.eqb_neq in E4. apply Z.eqb_neq in E5.
      exists EmptyString, h.
      do 3 (split; [first [reflexivity | eassumption]|]).
      split.
      { unfold mret, M_ret. do 2 f_equal.
        generalize (header s variant version). intros x.
        induction x as [|c x IH]; cbn [append]; congruence. }
      split; [intros _; split; reflexivity|]. split; [lia|].
      exact (bytesOf_Slice h a B Ha).
Qed.

Lemma Info_returns_witness :
  exists (rest : string) (h' : heap),
    Info (fun _ => EmptyString) 13 (Slice 0) [sample_v4]
    = Ok ((header "8BE4DF61-93CA-41D2-AA0D-00E098032B8C" VariantRFC4122 4 ++ rest)%string,
          h').
Proof.
  destruct (Info_returns (fun _ => EmptyString) 13 [sample_v4] 0%nat sample_v4
              eq_refl eq_refl (le_n 13))
    as (s & variant & version & rest & h' & Hs & Hvar & Hver & Hrun & _).
  injection Hs as <-. injection Hvar as <-. injection Hver as <-.
  exists rest, h'. exact Hrun.
Defined.



(** For a slice of 16 bytes of version 3, 4 or 5, the report ends with one
    line that names the data [Random] for version 4 and [Hash] otherwise,
    counts 16 bytes, and shows the bytes of the payload that [DataInfo]
    returns, each as two lower-case hex digits, with colons between. *)
Theorem Info_payload_line (timeString : time.Time -> string) (fuel : nat)
    (h : heap) (a : loc) (B : list byte) (s : string) (variant : UUIDVariant)
    (version : Z) (P : list byte) :
  h !! a = Some B -> length B = 16%nat ->
  UUIDByte_String B = Ok s -> Variant B = Ok variant -> Version B = Ok version ->
  3 <= version <= 5 ->
  DataInfo (Slice a) h = Ok (Slice (length h), h ++ [P]) ->
  Info timeString fuel (Slice a) h
  = Ok ((header s variant version
         ++ " * " ++ (if (version =? 4)%Z then "Random" else "Hash")
         ++ " Data (16): " ++ Join (map Sprintf02x P) ":" ++ nl)%string,
        h ++ [P]).
Proof.
  intros Ha HB Hs Hvar Hver Hv HD.
  unfold Info. rewrite run_load, (bytesOf_Slice h a B Ha).
  rewrite (run_lift _ _ h s Hs), (run_lift _ _ h variant Hvar),
          (run_lift _ _ h version Hver).
  fold (header s variant version).
  assert (E12 : (version =? 1) || (version =? 2) = false).
  { apply orb_false_iff. split; apply Z.eqb_neq; lia. }
  assert (E345 : (version =? 3) || (version =? 4) || (version =? 5) = true).
  { assert (version = 3 \/ version = 4 \/ version = 5) as [->|[->| ->]] by lia;
      reflexivity. }
  rewrite E12, E345. rewrite (run_bind _ _ h _ _ HD).
  rewrite run_load, (bytesOf_Slice _ _ P (lookup_fresh h P)).
  assert (HP : length P = 16%nat).
  { destruct (lookup_lt_is_Some_2 B 6%nat ltac:(lia)) as (b6 & H6).
    destruct (lookup_lt_is_Some_2 B 8%nat ltac:(lia)) as (b8 & H8).
    destruct (MaskVariant B) as [m| |] eqn:Hm;
      try (unfold MaskVariant, index, variantIdx in Hm; rewrite H8 in Hm;
           discriminate Hm).
    rewrite (DataInfo_run h a B b6 m Ha H6 Hm) in HD.
    injection HD as HD. apply app_inv_head in HD. injection HD as <-.
    rewrite !length_insert. exact HB. }
  rewrite HP. reflexivity.
Qed.

Lemma Info_payload_line_witness :
  Info (fun _ => EmptyString) 0 (Slice 0) [sample_v4]
  = Ok ((header "8BE4DF61-93CA-41D2-AA0D-00E098032B8C" VariantRFC4122 4
         ++ " * Random Data (16): 8b:e4:df:61:93:ca:01:d2:2a:0d:00:e0:98:03:2b:8c"
         ++ nl)%string,
        [sample_v4;
         [x8b; xe4; xdf; x61; x93; xca; x01; xd2; x2a; x0d; x00; xe0; x98; x03; x2b; x8c]]).
Proof.
  rewrite (Info_payload_line (fun _ => EmptyString) 0 [sample_v4] 0%nat sample_v4
             "8BE4DF61-93CA-41D2-AA0D-00E098032B8C" VariantRFC4122 4
             [x8b; xe4; xdf; x61; x93; xca; x01; xd2; x2a; x0d; x00; xe0; x98; x03; x2b; x8c]
             eq_refl eq_refl eq_refl eq_refl eq_refl ltac:(lia) eq_refl).
  reflexivity.
Defined.
